(** * The Cloudant gateway nodes of [77-cloudant-cf.js]

    A shallow embedding of the Node-RED nodes "cloudant out" and
    "cloudant in", with the properties their specification states.

    Conventions of the embedding.
    - A JavaScript string is a [string] whose characters are the code units
      U+0000 to U+00FF (Latin-1); case mapping and the whitespace class are
      those of ECMAScript restricted to that range.
    - A JavaScript number is an integer [Z]; its text is its digits,
      which is what the engine writes below 10^21 in magnitude.
    - A plain object is the list of its own enumerable fields, without
      duplicate names, and a field is never a function.  The list is in
      the order in which [for]-[in] visits the fields; the place a new
      field takes in it is not that of the engine for an index name, and
      the statements about the fields of a result read them by name.
      The prototype is not represented: the statements about the
      sanitizer leave out the messages in which a field would be stored
      under the name [__proto__], which replaces the prototype instead.
      The names the source looks up with [in] or with a dot are found
      among the own fields only, none of them being inherited from
      [Object.prototype].
    - Asynchronous backend calls are run in sequence: the backend is a
      state machine that answers each call, and the callback passed to
      the call is applied to its answer.  [In.process] runs one message
      from its handler to the end of its callback; [In.process_overlapped]
      runs two handlers before the first callback, which shows what the
      shared field [inputId] does. *)

From Stdlib Require Import String Ascii List ZArith NArith Lia Bool DecimalString.
Import ListNotations.

Local Open Scope string_scope.
Local Open Scope list_scope.

(* ================================================================= *)
(** ** Characters and strings *)

Definition code (c : ascii) : N := N_of_ascii c.

Definition between (lo hi n : N) : bool := ((lo <=? n) && (n <=? hi))%N.

(** Code units that [toLowerCase] changes: A-Z, and U+00C0..U+00DE but the
    multiplication sign U+00D7. *)
Definition is_upper (c : ascii) : bool :=
  between 65 90 (code c)
  || (between 192 222 (code c) && negb (code c =? 215)%N).

Definition lower_char (c : ascii) : ascii :=
  if is_upper c then ascii_of_N (code c + 32) else c.

(** [String.prototype.toLowerCase] *)
Fixpoint toLowerCase (s : string) : string :=
  match s with
  | EmptyString => EmptyString
  | String c r => String (lower_char c) (toLowerCase r)
  end.

(** The class [\s]: TAB, LF, VT, FF, CR, space and U+00A0. *)
Definition is_space (c : ascii) : bool :=
  between 9 13 (code c) || (code c =? 32)%N || (code c =? 160)%N.

(** The class [[\s\\/]] of the last [replace] of [_cleanDatabaseName]. *)
Definition is_sep (c : ascii) : bool :=
  is_space c || (code c =? 92)%N || (code c =? 47)%N.

(** [s.replace(/^_/, empty)]: one leading underscore is removed. *)
Definition strip_leading_underscore (s : string) : string :=
  match s with
  | String c r => if Ascii.eqb c "_" then r else s
  | EmptyString => s
  end.

(** [s.replace(/[\s\\/]+/g, "-")]: scanning left to right, [in_run] tells
    that the previous character belongs to the match being replaced. *)
Fixpoint collapse (in_run : bool) (s : string) : string :=
  match s with
  | EmptyString => EmptyString
  | String c r =>
      if is_sep c
      then (if in_run then collapse true r else String "-" (collapse true r))
      else String c (collapse false r)
  end.

Definition replace_sep_runs (s : string) : string := collapse false s.

(** [String.prototype.trim] *)
Fixpoint trimStart (s : string) : string :=
  match s with
  | EmptyString => EmptyString
  | String c r => if is_space c then trimStart r else s
  end.

Fixpoint trimEnd (s : string) : string :=
  match s with
  | EmptyString => EmptyString
  | String c r =>
      let r' := trimEnd r in
      if is_space c && (r' =? EmptyString) then EmptyString else String c r'
  end.

Definition trim (s : string) : string := trimEnd (trimStart s).

(** [s.indexOf(t) >= 0] *)
Fixpoint contains (t s : string) : bool :=
  prefix t s ||
  match s with
  | EmptyString => false
  | String _ r => contains t r
  end.

Definition starts_with (c : ascii) (s : string) : bool :=
  match s with
  | String d _ => Ascii.eqb d c
  | EmptyString => false
  end.

(** The string begins with two underscores. *)
Definition double_underscore (s : string) : bool :=
  match s with
  | String c (String d _) => Ascii.eqb c "_" && Ascii.eqb d "_"
  | _ => false
  end.

(** Whether the last character read belongs to a separator run, [b]
    telling it for the empty string. *)
Fixpoint run_state (b : bool) (s : string) : bool :=
  match s with
  | EmptyString => b
  | String c r => run_state (is_sep c) r
  end.

Definition ends_with_sep (s : string) : bool := run_state false s.

Definition starts_with_sep (s : string) : bool :=
  match s with
  | String c _ => is_sep c
  | EmptyString => false
  end.

Definition Z_to_string (n : Z) : string := NilEmpty.string_of_int (Z.to_int n).

(** The property name of the array index [i]. *)
Definition index_name (i : nat) : string := NilEmpty.string_of_uint (Nat.to_uint i).

Fixpoint join (sep : string) (l : list string) : string :=
  match l with
  | [] => EmptyString
  | [x] => x
  | x :: r => x ++ sep ++ join sep r
  end.

Fixpoint all_chars (p : ascii -> bool) (s : string) : bool :=
  match s with
  | EmptyString => true
  | String c r => p c && all_chars p r
  end.

(* ================================================================= *)
(** ** Values *)

#[warnings="-register-all"]
Inductive value : Type :=
| VUndefined
| VNull
| VBool (b : bool)
| VNum (n : Z)
| VStr (s : string)
| VArr (elems : list value)
| VObj (fields : list (string * value)).

Definition obj : Type := list (string * value).

(** [typeof v === "object"] *)
Definition typeof_object (v : value) : bool :=
  match v with
  | VNull | VArr _ | VObj _ => true
  | _ => false
  end.

(** ToBoolean *)
Definition truthy (v : value) : bool :=
  match v with
  | VUndefined | VNull => false
  | VBool b => b
  | VNum n => negb (n =? 0)%Z
  | VStr s => negb (s =? EmptyString)
  | VArr _ | VObj _ => true
  end.

(** [a || b] *)
Definition js_or (a b : value) : value := if truthy a then a else b.

(** Own fields of a plain object. *)
Fixpoint get_field (k : string) (o : obj) : option value :=
  match o with
  | [] => None
  | (k', v) :: r => if k' =? k then Some v else get_field k r
  end.

Definition has_field (k : string) (o : obj) : bool :=
  match get_field k o with Some _ => true | None => false end.

(** [o[k] = v]: an existing field keeps its place, a new one comes last. *)
Fixpoint set_field (k : string) (v : value) (o : obj) : obj :=
  match o with
  | [] => [(k, v)]
  | (k', v') :: r =>
      if k' =? k then (k, v) :: r else (k', v') :: set_field k v r
  end.

(** [delete o[k]] *)
Definition delete_field (k : string) (o : obj) : obj :=
  filter (fun p => negb (fst p =? k)) o.

Definition field_names (o : obj) : list string := map fst o.

(** The own enumerable fields of an array: its elements under their
    index names. *)
Definition indexed (l : list value) : obj :=
  combine (map index_name (seq 0 (List.length l))) l.

(** [o.k] on a plain object *)
Definition field_or_undefined (k : string) (o : obj) : value :=
  match get_field k o with Some v => v | None => VUndefined end.

(* ================================================================= *)
(** ** Exceptions, backend errors and observable events *)

Inductive exn : Type := TypeError | SyntaxError.

Inductive result (A : Type) : Type :=
| Ok (a : A)
| Throw (e : exn).
Arguments Ok {A} a.
Arguments Throw {A} e.

(** The error object of a backend callback. *)
Record error : Type := mkError { status_code : Z; description : string }.

(** Second argument of [node.error]. *)
Inductive error_source : Type :=
| BackendErr (e : error)
| LocalErr (message : string).

Inductive event : Type :=
| CallInsert (db : string) (doc : value)
| CallCreate (db : string)
| CallDestroy (db : string) (id rev : value)
| CallGet (db : string) (id : value)
| CallSearch (db design index : string) (options : value)
| CallList (db : string) (options : value)
| NodeWarn (text : string) (ctx : option error)
| NodeError (text : string) (src : error_source)
| NodeSend (msg : obj).

Definition is_backend_call (e : event) : bool :=
  match e with
  | CallInsert _ _ | CallCreate _ | CallDestroy _ _ _
  | CallGet _ _ | CallSearch _ _ _ _ | CallList _ _ => true
  | _ => false
  end.

Definition is_insert (e : event) : bool :=
  match e with CallInsert _ _ => true | _ => false end.
Definition is_create (e : event) : bool :=
  match e with CallCreate _ => true | _ => false end.
Definition is_warning (e : event) : bool :=
  match e with NodeWarn _ _ => true | _ => false end.
Definition is_error_report (e : event) : bool :=
  match e with NodeError _ _ => true | _ => false end.
Definition is_send (e : event) : bool :=
  match e with NodeSend _ => true | _ => false end.

Definition backend_calls (t : list event) : list event := filter is_backend_call t.
Definition count (p : event -> bool) (t : list event) : nat :=
  List.length (filter p t).

(** Synchronous code: the events emitted so far, and a value or the
    exception that stopped it. *)
Definition M (A : Type) : Type := (list event * result A)%type.

Definition ret {A} (a : A) : M A := ([], Ok a).
Definition throw {A} (e : exn) : M A := ([], Throw e).
Definition emit (e : event) : M unit := ([e], Ok tt).
Definition bind {A B} (m : M A) (f : A -> M B) : M B :=
  match m with
  | (t, Ok a) => let (t', r) := f a in (t ++ t', r)
  | (t, Throw e) => (t, Throw e)
  end.

Notation "x <- m ;; k" := (bind m (fun x => k))
  (at level 61, m at next level, right associativity).
Notation "m ;;; k" := (bind m (fun _ => k))
  (at level 61, right associativity).

(** A conversion, which emits nothing, inside synchronous code. *)
Definition lift {A} (r : result A) : M A := ([], r).

Definition and_then {A B} (r : result A) (f : A -> result B) : result B :=
  match r with
  | Ok a => f a
  | Throw e => Throw e
  end.

(** ToString, as applied to an operand of [+] with a string, to the
    argument of [JSON.parse] and, through ToNumber, to an index.  A
    mapping answers ["[object Object]"] through the inherited method,
    unless it has a field named [toString]: that field is not callable,
    [valueOf] gives back the mapping, and the conversion throws.  An array
    is joined as [Array.prototype.join] does, its elements converted from
    left to right.  A number is written in digits, as the engine does
    below 10^21 in magnitude. *)
Fixpoint ToString (v : value) : result string :=
  match v with
  | VUndefined => Ok "undefined"
  | VNull => Ok "null"
  | VBool true => Ok "true"
  | VBool false => Ok "false"
  | VNum n => Ok (Z_to_string n)
  | VStr s => Ok s
  | VArr l =>
      and_then
        ((fix elements (l : list value) : result (list string) :=
            match l with
            | [] => Ok []
            | e :: r =>
                and_then
                  (match e with
                   | VUndefined | VNull => Ok EmptyString
                   | _ => ToString e
                   end)
                  (fun s => and_then (elements r) (fun ss => Ok (s :: ss)))
            end) l)
        (fun ss => Ok (join "," ss))
  | VObj o => if has_field "toString" o then Throw TypeError else Ok "[object Object]"
  end.

(** [k in v]; the names asked for are never index names, ["length"] or
    inherited ones, so an array answers [false]. *)
Definition in_op (k : string) (v : value) : M bool :=
  match v with
  | VObj o => ret (has_field k o)
  | VArr _ => ret false
  | _ => throw TypeError
  end.

(** [v.k], for the same names. *)
Definition get_prop (k : string) (v : value) : M value :=
  match v with
  | VUndefined | VNull => throw TypeError
  | VObj o => ret (field_or_undefined k o)
  | _ => ret VUndefined
  end.

(* ================================================================= *)
(** ** [_cleanDatabaseName] *)

Definition _cleanDatabaseName (database : string) : string * list event :=
  let newDatabase := database in
  let newDatabase := toLowerCase newDatabase in
  let newDatabase := strip_leading_underscore newDatabase in
  let newDatabase := replace_sep_runs newDatabase in
  (newDatabase,
   if newDatabase =? database then []
   else [NodeWarn ("Database renamed  as '" ++ newDatabase ++ "'.") None]).

(** The normalized name alone. *)
Definition normalize (database : string) : string :=
  fst (_cleanDatabaseName database).

(* ================================================================= *)
(** ** Engine built-ins the source calls *)

(** An integer or an infinity, as ToIntegerOrInfinity returns. *)
Inductive xint : Type := NegInf | Fin (z : Z) | PosInf.

(** The two built-ins that read a text: [JSON.parse] ([None]: a
    SyntaxError is thrown) and ToIntegerOrInfinity of a string. *)
Record Runtime : Type := mkRuntime {
  JSON_parse : string -> option value;
  StringToIntegerOrInfinity : string -> xint
}.

(** ToIntegerOrInfinity; an array or a mapping is first made a string,
    which can throw. *)
Definition ToIntegerOrInfinity (rt : Runtime) (v : value) : result xint :=
  match v with
  | VUndefined | VNull => Ok (Fin 0)
  | VBool b => Ok (Fin (if b then 1 else 0))
  | VNum n => Ok (Fin n)
  | VStr s => Ok (StringToIntegerOrInfinity rt s)
  | VArr _ | VObj _ =>
      and_then (ToString v) (fun s => Ok (StringToIntegerOrInfinity rt s))
  end.

Definition clamp (x : xint) (len : Z) : Z :=
  match x with
  | NegInf => 0
  | Fin z => Z.min (Z.max z 0) len
  | PosInf => len
  end.

(** [s.substring(start, e)] once both arguments are integers or
    infinities: the bounds are clamped to the string and swapped when out
    of order. *)
Definition substring_at (start e : xint) (s : string) : string :=
  let len := Z.of_nat (String.length s) in
  let finalStart := clamp start len in
  let finalEnd := clamp e len in
  let from := Z.min finalStart finalEnd in
  let to := Z.max finalStart finalEnd in
  substring (Z.to_nat from) (Z.to_nat (to - from)) s.

(** The second argument of [substring] as an index: [undefined] stands
    for the length, another value is converted, which can throw. *)
Definition end_index (rt : Runtime) (e : value) : result xint :=
  match e with
  | VUndefined => Ok PosInf
  | _ => ToIntegerOrInfinity rt e
  end.

(** [s.substring(start, e)] for a value [e]. *)
Definition js_substring (rt : Runtime) (start : Z) (e : value) (s : string)
  : result string :=
  and_then (end_index rt e) (fun x => Ok (substring_at (Fin start) x s)).

(** [JSON.parse(text)] *)
Definition parse_text (rt : Runtime) (text : string) : M value :=
  match JSON_parse rt text with
  | Some p => ret p
  | None => throw SyntaxError
  end.

Definition dquote : string := String (ascii_of_nat 34) EmptyString.
Definition backslash : string := String (ascii_of_nat 92) EmptyString.

Definition hex_digit (n : N) : string :=
  substring (N.to_nat n) 1 "0123456789abcdef".

(** The escape [JSON.stringify] writes for one code unit of a string. *)
Definition escape_char (c : ascii) : string :=
  let n := code c in
  if (n =? 34)%N then backslash ++ dquote
  else if (n =? 92)%N then backslash ++ backslash
  else if (n =? 8)%N then backslash ++ "b"
  else if (n =? 12)%N then backslash ++ "f"
  else if (n =? 10)%N then backslash ++ "n"
  else if (n =? 13)%N then backslash ++ "r"
  else if (n =? 9)%N then backslash ++ "t"
  else if (n <? 32)%N then backslash ++ "u00" ++ hex_digit (n / 16) ++ hex_digit (n mod 16)
  else String c EmptyString.

Fixpoint escape (s : string) : string :=
  match s with
  | EmptyString => EmptyString
  | String c r => escape_char c ++ escape r
  end.

Definition quote (s : string) : string := dquote ++ escape s ++ dquote.

(** [JSON.stringify(v)] of a value other than [undefined]: an undefined
    array element is written [null], an undefined field is left out. *)
Fixpoint JSON_stringify (v : value) : string :=
  match v with
  | VUndefined | VNull => "null"
  | VBool true => "true"
  | VBool false => "false"
  | VNum n => Z_to_string n
  | VStr s => quote s
  | VArr l => ("[" ++ join "," (map JSON_stringify l) ++ "]")%string
  | VObj o =>
      ("{" ++ join ","
               (flat_map (fun kv => match kv with
                                    | (_, VUndefined) => []
                                    | (k, x) => [(quote k ++ ":" ++ JSON_stringify x)%string]
                                    end) o)
          ++ "}")%string
  end.

(* ================================================================= *)
(** ** The "cloudant out" node: document sanitizing *)

Definition MAX_ATTEMPTS : nat := 3.

Definition allowedWords : list string :=
  [ "_id"; "_rev"; "_attachments"; "_deleted"; "_revisions";
    "_revs_info"; "_conflicts"; "_deleted_conflicts"; "_local_seq" ].

(** [allowedWords.indexOf(key) >= 0] *)
Definition indexOf_found (key : string) (l : list string) : bool :=
  existsb (fun w => w =? key) l.

Definition isFieldNameValid (key : string) : bool :=
  negb (starts_with "_" key) || indexOf_found key allowedWords.

(** One turn of the [for (var key in msg)] loop of [cleanMessage].  A key
    deleted before its turn is skipped.  [msg.hasOwnProperty] is the
    inherited method unless the message has an own field of that name,
    which no value of the model makes callable.  [msg.length] is the own
    field of that name, or undefined.  The assignment [msg[newKey] = ...]
    sets the own field [newKey]; under the name [__proto__] the engine
    replaces the prototype instead, which this definition does not follow
    and the statements leave out. *)
Definition clean_key (rt : Runtime) (msg : obj) (key : string) : M obj :=
  if has_field key msg then
    if has_field "hasOwnProperty" msg then throw TypeError
    else if negb (isFieldNameValid key) then
      newKey <- lift (js_substring rt 1 (field_or_undefined "length" msg) key) ;;
      let msg1 := set_field newKey (field_or_undefined key msg) msg in
      let msg2 := delete_field key msg1 in
      emit (NodeWarn ("Property '" ++ key ++ "' renamed to '" ++ newKey ++ "'.") None) ;;;
      ret msg2
    else ret msg
  else ret msg.

(** The loop over the keys listed when it starts: fields added while it
    runs are not visited. *)
Fixpoint clean_keys (rt : Runtime) (keys : list string) (msg : obj) : M obj :=
  match keys with
  | [] => ret msg
  | key :: rest => msg' <- clean_key rt msg key ;; clean_keys rt rest msg'
  end.

(** [cleanMessage]: [null] has nothing to enumerate, and the keys of an
    array are index names, which are valid field names. *)
Definition cleanMessage (rt : Runtime) (msg : value) : M value :=
  match msg with
  | VObj o => o' <- clean_keys rt (field_names o) o ;; ret (VObj o')
  | _ => ret msg
  end.

(** The text that [parseMessage] builds around the text of a value that
    is not an object: an opening brace, [root] and the text between double
    quotes with a colon in between, a closing brace. *)
Definition wrap_text (root : string) (text : string) : string :=
  "{" ++ dquote ++ root ++ dquote ++ ":" ++ dquote ++ text ++ dquote ++ "}".

(** The first half of [parseMessage]: the value that [cleanMessage]
    receives.  The one [try] covers both calls of [JSON.parse]; its
    handler wraps the current [msg], which is the parsed value once the
    first call has returned. *)
Definition parsed_input (rt : Runtime) (msg : value) (root : string) : M value :=
  if negb (typeof_object msg) then
    text <- lift (ToString msg) ;;
    match JSON_parse rt text with
    | Some p =>
        if negb (typeof_object p) then
          ptext <- lift (ToString p) ;;
          match JSON_parse rt (wrap_text root ptext) with
          | Some q => ret q
          | None => parse_text rt (wrap_text root ptext)
          end
        else ret p
    | None => parse_text rt (wrap_text root text)
    end
  else ret msg.

Definition parseMessage (rt : Runtime) (msg : value) (root : string) : M value :=
  msg' <- parsed_input rt msg root ;;
  cleanMessage rt msg'.

(* ================================================================= *)
(** ** The backend and a run of one message *)

(** The database client: each call takes the backend's state and yields
    the next state and the arguments its callback receives. *)
Record Backend (St : Type) : Type := mkBackend {
  db_insert : St -> string -> value -> St * (option error * value);
  db_create : St -> string -> St * option error;
  db_destroy : St -> string -> value -> value -> St * option error;
  db_get : St -> string -> value -> St * (option error * value);
  db_search : St -> string -> string -> string -> value -> St * (option error * value);
  db_list : St -> string -> value -> St * (option error * value)
}.
Arguments db_insert {St}.
Arguments db_create {St}.
Arguments db_destroy {St}.
Arguments db_get {St}.
Arguments db_search {St}.
Arguments db_list {St}.

(** What handling one message did: the backend's state afterwards, the
    events in order, and the exception that ended it, if any. *)
Record outcome (St : Type) : Type := mkOutcome {
  final : St;
  trace : list event;
  thrown : option exn
}.
Arguments mkOutcome {St}.
Arguments final {St}.
Arguments trace {St}.
Arguments thrown {St}.

(** Synchronous code [m] first, then [k] on its value. *)
Definition after {St A} (m : M A) (st : St) (k : A -> outcome St) : outcome St :=
  match m with
  | (t, Ok a) => let o := k a in mkOutcome (final o) (t ++ trace o) (thrown o)
  | (t, Throw e) => mkOutcome st t (Some e)
  end.

(** The asynchronous part ran to its end. *)
Definition done {St} (st : St) (t : list event) : outcome St := mkOutcome st t None.

(* ================================================================= *)
(** ** The "cloudant out" node: insert and delete *)

Record OutNode : Type := mkOutNode {
  operation : string;
  payonly : bool;
  database : string
}.

(** The fields [CloudantOutNode] sets from its configuration, with the
    warning the name cleaner may emit. *)
Definition CloudantOutNode (n_operation : string) (n_payonly : value)
    (n_database : string) : OutNode * list event :=
  let (db, warnings) := _cleanDatabaseName n_database in
  (mkOutNode n_operation (truthy (js_or n_payonly (VBool false))) db, warnings).

Section OutNodeRun.
Context {St : Type}.
Variable rt : Runtime.
Variable be : Backend St.

(** [insertDocument]: the result is what [callback] is called with.
    [attempts] counts down from [MAX_ATTEMPTS]; the callback of
    [cloudant.db.create] ignores its arguments. *)
Fixpoint insertDocument (node : OutNode) (doc : value) (attempts : nat) (st : St)
  : St * list event * (option error * value) :=
  let '(st1, (err, body)) := db_insert be st (database node) doc in
  match err, attempts with
  | Some e, S attempts' =>
      if (status_code e =? 404)%Z then
        let '(st2, _) := db_create be st1 (database node) in
        let '(st3, t, r) := insertDocument node doc attempts' st2 in
        (st3, CallInsert (database node) doc :: CallCreate (database node) :: t, r)
      else (st1, [CallInsert (database node) doc], (err, body))
  | _, _ => (st1, [CallInsert (database node) doc], (err, body))
  end.

(** The callback [handleMessage] passes to [insertDocument]. *)
Definition insert_callback (err : option error) : list event :=
  match err with
  | Some e => [NodeError ("Failed to insert document: " ++ description e) (BackendErr e)]
  | None => []
  end.

(** The callback [handleMessage] passes to [db.destroy]. *)
Definition destroy_callback (err : option error) : list event :=
  match err with
  | Some e => [NodeError ("Failed to delete document: " ++ description e) (BackendErr e)]
  | None => []
  end.

Definition precondition_message : string :=
  "_id and _rev are required to delete a document".

(** The value the insert branch parses, and under which name. *)
Definition insert_input (node : OutNode) (msg : obj) : value * string :=
  (if payonly node then field_or_undefined "payload" msg else VObj msg,
   if payonly node then "payload" else "msg").

(** The value the delete branch parses: [msg.payload || msg]. *)
Definition delete_input (msg : obj) : value :=
  js_or (field_or_undefined "payload" msg) (VObj msg).

Definition handleMessage (node : OutNode) (msg : obj) (st : St) : outcome St :=
  if operation node =? "insert" then
    let (m, root) := insert_input node msg in
    after (parseMessage rt m root) st (fun doc =>
      let '(st', t, (err, _)) := insertDocument node doc MAX_ATTEMPTS st in
      done st' (t ++ insert_callback err))
  else if operation node =? "delete" then
    after (doc <- parseMessage rt (delete_input msg) EmptyString ;;
           has_rev <- in_op "_rev" doc ;;
           has_id <- (if has_rev then in_op "_id" doc else ret false) ;;
           if has_rev && has_id then
             id <- get_prop "_id" doc ;;
             rev <- get_prop "_rev" doc ;;
             ret (Some (id, rev))
           else
             emit (NodeError precondition_message (LocalErr precondition_message)) ;;;
             ret None)
          st
          (fun request =>
             match request with
             | Some (id, rev) =>
                 let (st', err) := db_destroy be st (database node) id rev in
                 done st' (CallDestroy (database node) id rev :: destroy_callback err)
             | None => done st []
             end)
  else done st [].

End OutNodeRun.

(* ================================================================= *)
(** ** The "cloudant in" node *)

Module In.

Record Node : Type := mkNode {
  database : string;
  search : string;
  design : string;
  index : string;
  inputId : value
}.

(** The fields [CloudantInNode] sets from its configuration. *)
Definition CloudantInNode (n_database n_search n_design n_index : string)
  : Node * list event :=
  let (db, warnings) := _cleanDatabaseName n_database in
  (mkNode db n_search n_design n_index (VStr EmptyString), warnings).

Definition set_inputId (node : Node) (id : value) : Node :=
  mkNode (database node) (search node) (design node) (index node) id.

(** The call the input handler hands to the database client. *)
Inductive request : Type :=
| ReqGet (id : value)
| ReqSearch (design index : string) (options : value)
| ReqList (options : value).

Definition getDocumentId (payload : value) : M value :=
  if typeof_object payload then
    has__id <- in_op "_id" payload ;;
    has_id <- (if has__id then ret true else in_op "id" payload) ;;
    if has_id then
      id <- get_prop "id" payload ;;
      if truthy id then ret id else get_prop "_id" payload
    else ret payload
  else ret payload.

(** The text the [for (var key in query)] loop of [formatSearchQuery]
    accumulates. *)
Fixpoint query_text (fields : obj) (queryString : string) : result string :=
  match fields with
  | [] => Ok queryString
  | (key, v) :: rest =>
      and_then (ToString v)
               (fun s => query_text rest (queryString ++ key ++ ":" ++ s ++ " "))
  end.

(** The fields a [for ... in] loop visits. *)
Definition enumerable_fields (v : value) : obj :=
  match v with
  | VObj o => o
  | VArr l => indexed l
  | _ => []
  end.

Definition formatSearchQuery (query : value) : M value :=
  if typeof_object query then
    has_q <- in_op "q" query ;;
    if has_q then get_prop "q" query
    else
      queryString <- lift (query_text (enumerable_fields query) EmptyString) ;;
      ret (VStr (trim queryString))
  else ret query.

(** [var options = typeof msg.payload === "object" ? msg.payload : {}],
    as the fields the handler reads and assigns.  An array payload keeps
    its elements under their index names; [null] has no fields to read,
    so the first access throws. *)
Definition options_of (payload : value) : M obj :=
  match payload with
  | VObj o => ret o
  | VArr l => ret (indexed l)
  | VNull => throw TypeError
  | _ => ret []
  end.

(** [if (options.sort) options.sort = JSON.stringify(options.sort)].
    On an array [options.sort] is the inherited method unless a field
    was stored under that name: it is truthy, and [JSON.stringify] of a
    function is [undefined]. *)
Definition serialize_sort (payload : value) (options : obj) : obj :=
  match payload, get_field "sort" options with
  | VArr _, None => set_field "sort" VUndefined options
  | _, _ =>
      let sort := field_or_undefined "sort" options in
      if truthy sort
      then set_field "sort" (VStr (JSON_stringify sort)) options
      else options
  end.

(** The options the [_idx_] branch sends. *)
Definition search_options (payload : value) : M obj :=
  options <- options_of payload ;;
  query <-
    (let q1 := field_or_undefined "query" options in
     if truthy q1 then ret q1
     else
       let q2 := field_or_undefined "q" options in
       if truthy q2 then ret q2 else formatSearchQuery payload) ;;
  let options := set_field "query" query options in
  let options :=
    set_field "include_docs"
      (js_or (field_or_undefined "include_docs" options) (VBool true)) options in
  let options :=
    set_field "limit" (js_or (field_or_undefined "limit" options) (VNum 200)) options in
  ret (serialize_sort payload options).

(** The options the [_all_] branch sends. *)
Definition list_options (payload : value) : M obj :=
  options <- options_of payload ;;
  ret (set_field "include_docs"
         (js_or (field_or_undefined "include_docs" options) (VBool true)) options).

(** The handler of ["input"] up to the call of the database client: the
    node with [inputId] stored, and the call, if any.  The options object
    is the payload itself when that is an object; the fields assigned to
    it are never read through [msg], whose payload the callback
    overwrites. *)
Definition on_input (node : Node) (msg : obj)
  : M (Node * option request) :=
  let payload := field_or_undefined "payload" msg in
  if search node =? "_id_" then
    id <- getDocumentId payload ;;
    ret (set_inputId node id, Some (ReqGet id))
  else if search node =? "_idx_" then
    options <- search_options payload ;;
    ret (node, Some (ReqSearch (design node) (index node) (VObj options)))
  else if search node =? "_all_" then
    options <- list_options payload ;;
    ret (node, Some (ReqList (VObj options)))
  else ret (node, None).

(** [el !== null && el !== undefined] *)
Definition not_nullish (v : value) : bool :=
  match v with
  | VUndefined | VNull => false
  | _ => true
  end.

(** [x.indexOf("_design/") < 0] for the [_id] of a row's document. *)
Definition lacks_design (x : value) : M bool :=
  match x with
  | VStr s => ret (negb (contains "_design/" s))
  | VArr l =>
      ret (negb (existsb (fun e => match e with
                                   | VStr s => s =? "_design/"
                                   | _ => false
                                   end) l))
  | _ => throw TypeError
  end.

(** The function mapped over [body.rows]. *)
Definition row_document (el : value) : M value :=
  doc <- get_prop "doc" el ;;
  _id <- get_prop "_id" doc ;;
  keep <- lacks_design _id ;;
  ret (if keep then doc else VUndefined).

Fixpoint map_rows (rows : list value) : M (list value) :=
  match rows with
  | [] => ret []
  | el :: rest =>
      d <- row_document el ;;
      ds <- map_rows rest ;;
      ret (d :: ds)
  end.

(** The warning for a document [id_text] missing from [db]. *)
Definition not_found (id_text db : string) : string :=
  "Document '" ++ id_text ++ "' not found in database '" ++ db ++ "'.".

(** The text built for [node.warn], from the identifier the node holds
    when the callback runs. *)
Definition not_found_text (node : Node) : result string :=
  and_then (ToString (inputId node)) (fun s => Ok (not_found s (database node))).

Definition sendDocumentOnPayload (node : Node) (err : option error)
    (body : value) (msg : obj) : M unit :=
  msg' <-
    match err with
    | None =>
        let msg := set_field "cloudant" body msg in
        has_rows <- in_op "rows" body ;;
        if has_rows then
          rows <- get_prop "rows" body ;;
          match rows with
          | VArr l =>
              docs <- map_rows l ;;
              ret (set_field "payload" (VArr (filter not_nullish docs)) msg)
          | _ => throw TypeError
          end
        else ret (set_field "payload" body msg)
    | Some e =>
        let msg := set_field "payload" VNull msg in
        (if description e =? "missing"
         then text <- lift (not_found_text node) ;; emit (NodeWarn text (Some e))
         else emit (NodeError (description e) (BackendErr e))) ;;;
        ret msg
    end ;;
  emit (NodeSend msg').

Section Run.
Context {St : Type}.
Variable be : Backend St.

Definition perform (node : Node) (r : request) (st : St)
  : St * (option error * value) :=
  match r with
  | ReqGet id => db_get be st (database node) id
  | ReqSearch d i options => db_search be st (database node) d i options
  | ReqList options => db_list be st (database node) options
  end.

Definition call_event (node : Node) (r : request) : event :=
  match r with
  | ReqGet id => CallGet (database node) id
  | ReqSearch d i options => CallSearch (database node) d i options
  | ReqList options => CallList (database node) options
  end.

(** One message from the handler to the end of the callback. *)
Definition process (node : Node) (msg : obj) (st : St) : Node * outcome St :=
  match on_input node msg with
  | (t, Throw e) => (node, mkOutcome st t (Some e))
  | (t, Ok (node', None)) => (node', done st t)
  | (t, Ok (node', Some r)) =>
      let '(st', (err, body)) := perform node' r st in
      let (t', res) := sendDocumentOnPayload node' err body msg in
      (node',
       mkOutcome st' (t ++ call_event node' r :: t')
         (match res with Throw e => Some e | Ok _ => None end))
  end.
(** Two lookups in flight: the handler of the second message runs before
    the callback of the first, which so reads the node as the second
    handler left it.  The events of both, in order. *)
Definition process_overlapped (node : Node) (msg1 msg2 : obj) (st : St) : list event :=
  match on_input node msg1 with
  | (t1, Ok (node1, Some r1)) =>
      match on_input node1 msg2 with
      | (t2, Ok (node2, Some r2)) =>
          let '(st1, (err1, body1)) := perform node1 r1 st in
          let '(st2, (err2, body2)) := perform node2 r2 st1 in
          t1 ++ call_event node1 r1 :: t2 ++ call_event node2 r2 ::
          fst (sendDocumentOnPayload node2 err1 body1 msg1)
          ++ fst (sendDocumentOnPayload node2 err2 body2 msg2)
      | (t2, _) => t1 ++ call_event node1 r1 :: t2
      end
  | (t1, _) => t1
  end.
End Run.

End In.

(* ================================================================= *)
(** ** Startup of the "cloudant out" node *)

(** The calls and reports of the startup code: the listing of all
    databases, which has no argument, and the events of a run. *)
Inductive startup_event : Type :=
| CallListDatabases
| Startup (e : event).

(** [createDatabase]: [list_databases] is [cloudant.db.list], whose
    callback receives an error or the names ([None]: no array). *)
Definition createDatabase {St} (be : Backend St)
    (list_databases : St -> St * (option error * option (list string)))
    (node : OutNode) (st : St) : St * list startup_event :=
  let '(st1, (err, all_dbs)) := list_databases st in
  match err with
  | Some e =>
      if (status_code e =? 403)%Z then (st1, [CallListDatabases])
      else
        (st1, [CallListDatabases;
               Startup (NodeError ("Failed to list databases: " ++ description e)
                                  (BackendErr e))])
  | None =>
      match all_dbs with
      | Some names =>
          if negb (indexOf_found (database node) names) then
            let (st2, cerr) := db_create be st1 (database node) in
            (st2,
             CallListDatabases :: Startup (CallCreate (database node)) ::
             match cerr with
             | Some e =>
                 [Startup (NodeError ("Failed to create database: " ++ description e)
                                     (BackendErr e))]
             | None => []
             end)
          else (st1, [CallListDatabases])
      | None => (st1, [CallListDatabases])
      end
  end.

(** The callback [CloudantOutNode] passes to [Cloudant]: a failed
    connection is reported, a successful one checks the database. *)
Definition on_connect {St} (be : Backend St)
    (list_databases : St -> St * (option error * option (list string)))
    (node : OutNode) (err : option error) (st : St) : St * list startup_event :=
  match err with
  | Some e => (st, [Startup (NodeError (description e) (BackendErr e))])
  | None => createDatabase be list_databases node st
  end.

(* ================================================================= *)
(** ** Connection profiles *)

(** The position of the first [c] in [s]. *)
Fixpoint index_of (c : ascii) (s : string) : option nat :=
  match s with
  | EmptyString => None
  | String d r => if Ascii.eqb d c then Some 0 else option_map S (index_of c r)
  end.

(** [s.indexOf(c)] *)
Definition indexOf_char (c : ascii) (s : string) : Z :=
  match index_of c s with
  | Some i => Z.of_nat i
  | None => (-1)%Z
  end.

(** [host.substring(0, host.indexOf("."))] *)
Definition account_of (host : string) : string :=
  substring_at (Fin 0) (Fin (indexOf_char "." host)) host.

Record profile : Type := mkProfile {
  account : string;
  username : value;
  password : value
}.

(** [CloudantNode]: [url_host] is [url.parse(host).host] when that is
    truthy; [credentials] is what the host stores for the node. *)
Definition CloudantNode (url_host : string -> option string)
    (n_host : string) (credentials : option obj) : profile :=
  let host := match url_host n_host with Some h => h | None => n_host end in
  mkProfile (account_of host)
    (match credentials with
     | Some c => field_or_undefined "username" c
     | None => VUndefined
     end)
    (match credentials with
     | Some c => field_or_undefined "password" c
     | None => VUndefined
     end).

(** The credentials of a bound service. *)
Record service : Type := mkService {
  host : string;
  service_username : value;
  service_password : value
}.

(** [_getCloudantConfig]: [getNode] is [RED.nodes.getNode] and
    [getService] is [appEnv.getService]. *)
Definition _getCloudantConfig
    (getNode : string -> option profile) (getService : string -> option service)
    (n_service n_cloudant : string) : M (option profile) :=
  if n_service =? "_ext_" then ret (getNode n_cloudant)
  else if negb (n_service =? EmptyString) then
    match getService n_service with
    | Some s =>
        ret (Some (mkProfile (account_of (host s))
                     (service_username s) (service_password s)))
    | None => throw TypeError
    end
  else ret None.

(* ================================================================= *)
(** ** The endpoints for stored credentials *)

(** [a && b] *)
Definition js_and (a b : value) : value := if truthy a then b else a.

(** [v === ""] and [v === null] *)
Definition is_empty_string (v : value) : bool :=
  match v with
  | VStr s => s =? EmptyString
  | _ => false
  end.

Definition is_null (v : value) : bool :=
  match v with
  | VNull => true
  | _ => false
  end.

(** GET [/cloudant/:id]: the text sent for the credentials the host has
    stored, if any. *)
Definition get_credentials_response (credentials : option obj) : string :=
  match credentials with
  | Some c =>
      let password := field_or_undefined "password" c in
      JSON_stringify
        (VObj [("username", field_or_undefined "username" c);
               ("hasPassword",
                js_and password (VBool (negb (is_empty_string password))))])
  | None => JSON_stringify (VObj [])
  end.

(** POST [/cloudant/:id]: the credentials handed to
    [RED.nodes.addCredentials], from those stored and the request body. *)
Definition post_credentials (stored : option obj) (newCreds : obj) : obj :=
  let credentials := match stored with Some c => c | None => [] end in
  let new_username := field_or_undefined "username" newCreds in
  let credentials :=
    if is_null new_username || is_empty_string new_username
    then delete_field "username" credentials
    else set_field "username" new_username credentials in
  let new_password := field_or_undefined "password" newCreds in
  if is_empty_string new_password
  then delete_field "password" credentials
  else set_field "password"
         (js_or new_password (field_or_undefined "password" credentials))
         credentials.

(* ================================================================= *)
(** ** Vocabulary of the statements *)

Definition not_upper (c : ascii) : bool := negb (is_upper c).
Definition not_sep (c : ascii) : bool := negb (is_sep c).

(** The name the specification asks for. *)
Definition clean_name (n : string) : Prop :=
  all_chars not_upper n = true
  /\ starts_with "_" n = false
  /\ all_chars not_sep n = true.

Definition only_warnings (t : list event) : Prop :=
  Forall (fun e => is_warning e = true) t.

(** [n] rounds of a refused insert followed by the creation of the database. *)
Fixpoint retry_cycles (db : string) (doc : value) (n : nat) : list event :=
  match n with
  | O => []
  | S n' => CallInsert db doc :: CallCreate db :: retry_cycles db doc n'
  end.

(** The backend reports the database as missing at every insert. *)
Definition always_missing {St} (be : Backend St) : Prop :=
  forall st db doc,
    exists st' e body,
      db_insert be st db doc = (st', (Some e, body)) /\ status_code e = 404%Z.

(** The first insert is not refused for a missing database. *)
Definition present_at {St} (be : Backend St) (st : St) (db : string) (doc : value) : Prop :=
  match snd (db_insert be st db doc) with
  | (Some e, _) => status_code e <> 404%Z
  | (None, _) => True
  end.

Definition tail (s : string) : string :=
  match s with
  | String _ r => r
  | EmptyString => EmptyString
  end.

(** [k] is what is left of a field name of [names] that begins with two
    underscores once the first is removed. *)
Definition stripped_from (names : list string) (k : string) : Prop :=
  exists k0, In k0 names /\ double_underscore k0 = true /\ k = tail k0.

(** Every field name is valid, is still to be visited, or is such a rest. *)
Definition names_settled (names rest : list string) (msg : obj) : Prop :=
  forall k, In k (field_names msg) ->
    isFieldNameValid k = true \/ In k rest \/ stripped_from names k.

(** The own field [k] of an extracted document; an array has no field
    of the names asked for. *)
Definition own_field (k : string) (doc : value) : option value :=
  match doc with
  | VObj o => get_field k o
  | _ => None
  end.



(** The caller of an indexed search names the query: [query] or [q] is
    truthy, or [q] is a field of the payload. *)
Definition query_given (o : obj) : bool :=
  truthy (field_or_undefined "query" o)
  || truthy (field_or_undefined "q" o)
  || has_field "q" o.

(** An engine for closed examples that parses the one text [null]. *)
Definition null_runtime : Runtime :=
  mkRuntime (fun text => if text =? "null" then Some VNull else None)
            (fun _ => Fin 0).

(** An engine for the closed examples, whose inputs are objects without a
    [length] field and so reach neither built-in. *)
Definition example_runtime : Runtime :=
  mkRuntime (fun _ => None) (fun _ => Fin 0).

(** A backend without state that answers every call alike. *)
Definition fixed_backend (err : option error) (body : value) : Backend unit :=
  mkBackend unit
    (fun st _ _ => (st, (err, body)))
    (fun st _ => (st, err))
    (fun st _ _ _ => (st, err))
    (fun st _ _ => (st, (err, body)))
    (fun st _ _ _ _ => (st, (err, body)))
    (fun st _ _ => (st, (err, body))).

(** The parse of the insert branch yields [doc] after the warnings [w]. *)
Definition insert_parses (rt : Runtime) (node : OutNode) (msg : obj)
    (w : list event) (doc : value) : Prop :=
  parseMessage rt (fst (insert_input node msg)) (snd (insert_input node msg))
  = (w, Ok doc).

Definition is_destroy (e : event) : bool :=
  match e with CallDestroy _ _ _ => true | _ => false end.

(** The database a backend call is addressed to. *)
Definition event_db (e : event) : option string :=
  match e with
  | CallInsert db _ | CallCreate db | CallDestroy db _ _
  | CallGet db _ | CallSearch db _ _ _ | CallList db _ => Some db
  | _ => None
  end.

(** Every backend call of the trace goes to [db]. *)
Definition addressed_to (db : string) (t : list event) : Prop :=
  Forall (fun e => is_backend_call e = true -> event_db e = Some db) t.

(** A backend whose state tells whether the database exists: an insert
    is refused with 404 until the database is created. *)
Definition lazy_backend : Backend bool :=
  mkBackend bool
    (fun exists_ _ _ =>
       (exists_,
        if exists_ then (None, VObj [("ok", VBool true)])
        else (Some (mkError 404 "no_db_file"), VUndefined)))
    (fun _ _ => (true, None))
    (fun st _ _ _ => (st, None))
    (fun st _ _ => (st, (None, VUndefined)))
    (fun st _ _ _ _ => (st, (None, VUndefined)))
    (fun st _ _ => (st, (None, VUndefined))).

(** A row of a listing that carries a document with a string [_id]. *)
Definition row_doc (el : value) : option (value * string) :=
  match el with
  | VObj r =>
      match get_field "doc" r with
      | Some (VObj d) =>
          match get_field "_id" d with
          | Some (VStr s) => Some (VObj d, s)
          | _ => None
          end
      | _ => None
      end
  | _ => None
  end.

(** The documents of the rows whose [_id] does not contain ["_design/"]. *)
Fixpoint regular_docs (rows : list value) : list value :=
  match rows with
  | [] => []
  | el :: rest =>
      match row_doc el with
      | Some (d, s) =>
          if contains "_design/" s then regular_docs rest else d :: regular_docs rest
      | None => regular_docs rest
      end
  end.

(** A row without a document: [null], [undefined], or an object whose
    [doc] is absent, [null] or [undefined]. *)
Definition row_without_doc (el : value) : bool :=
  match el with
  | VUndefined | VNull => true
  | VObj r =>
      match get_field "doc" r with
      | None | Some VUndefined | Some VNull => true
      | _ => false
      end
  | _ => true
  end.

Definition no_dot (c : ascii) : bool := negb (Ascii.eqb c ".").

(** The shapes of the trace of one message of the out node, after the
    warnings of the parse. *)
Inductive out_tail (node : OutNode) : list event -> Prop :=
| tail_nothing : out_tail node []
| tail_insert k doc err :
    k <= MAX_ATTEMPTS ->
    out_tail node (retry_cycles (database node) doc k
                     ++ [CallInsert (database node) doc] ++ insert_callback err)
| tail_refused :
    out_tail node [NodeError precondition_message (LocalErr precondition_message)]
| tail_destroy id rev err :
    out_tail node (CallDestroy (database node) id rev :: destroy_callback err).

Definition is_startup_create (e : startup_event) : bool :=
  match e with Startup (CallCreate _) => true | _ => false end.

(** The two steps of the POST handler. *)
Definition post_username (newCreds credentials : obj) : obj :=
  let new_username := field_or_undefined "username" newCreds in
  if is_null new_username || is_empty_string new_username
  then delete_field "username" credentials
  else set_field "username" new_username credentials.

Definition post_password (newCreds credentials : obj) : obj :=
  let new_password := field_or_undefined "password" newCreds in
  if is_empty_string new_password
  then delete_field "password" credentials
  else set_field "password"
         (js_or new_password (field_or_undefined "password" credentials))
         credentials.

(* ================================================================= *)
(** * Properties *)

(** ** The name normalizer *)

Ltac each_char c :=
  destruct c as [[] [] [] [] [] [] [] []]; vm_compute; try reflexivity; try discriminate.

Lemma lower_char_not_upper c : not_upper (lower_char c) = true.
Proof. each_char c. Qed.

Lemma lower_char_sep c : is_sep (lower_char c) = is_sep c.
Proof. each_char c. Qed.

Lemma lower_char_underscore c : Ascii.eqb (lower_char c) "_" = Ascii.eqb c "_".
Proof. each_char c. Qed.

Lemma lower_char_fixed c : not_upper c = true -> lower_char c = c.
Proof.
  unfold not_upper, lower_char. destruct (is_upper c); [discriminate | reflexivity].
Qed.

Lemma sep_not_underscore c : is_sep c = true -> Ascii.eqb c "_" = false.
Proof. each_char c. Qed.

Lemma sep_not_upper c : is_sep c = true -> not_upper c = true.
Proof. each_char c. Qed.

Lemma normalize_eq s :
  normalize s = collapse false (strip_leading_underscore (toLowerCase s)).
Proof. reflexivity. Qed.

Lemma toLowerCase_not_upper s : all_chars not_upper (toLowerCase s) = true.
Proof.
  induction s as [| c r IH]; simpl; [reflexivity |].
  now rewrite lower_char_not_upper, IH.
Qed.

Lemma toLowerCase_fixed s : all_chars not_upper s = true -> toLowerCase s = s.
Proof.
  induction s as [| c r IH]; simpl; [reflexivity |].
  intros H. apply andb_true_iff in H as [Hc Hr].
  now rewrite (lower_char_fixed c Hc), (IH Hr).
Qed.

Lemma strip_all_chars p s :
  all_chars p s = true -> all_chars p (strip_leading_underscore s) = true.
Proof.
  destruct s as [| c r]; simpl; [reflexivity |].
  intros H. destruct (Ascii.eqb c "_"); [| exact H].
  now apply andb_true_iff in H.
Qed.

Lemma collapse_all_chars p b s :
  p "-"%char = true -> all_chars p s = true -> all_chars p (collapse b s) = true.
Proof.
  intros Hp. revert b.
  induction s as [| c r IH]; intros b H; simpl; [reflexivity |].
  simpl in H. apply andb_true_iff in H as [Hc Hr].
  destruct (is_sep c).
  - destruct b; simpl; rewrite ?Hp; now apply IH.
  - simpl. now rewrite Hc, IH.
Qed.

Lemma collapse_not_sep b s : all_chars not_sep (collapse b s) = true.
Proof.
  revert b. induction s as [| c r IH]; intros b; simpl; [reflexivity |].
  destruct (is_sep c) eqn:Hc.
  - destruct b; simpl; now rewrite ?IH.
  - simpl. unfold not_sep at 1. now rewrite Hc, IH.
Qed.

Lemma collapse_fixed b s : all_chars not_sep s = true -> collapse b s = s.
Proof.
  revert b. induction s as [| c r IH]; intros b H; simpl; [reflexivity |].
  simpl in H. apply andb_true_iff in H as [Hc Hr].
  unfold not_sep in Hc. apply negb_true_iff in Hc. rewrite Hc.
  now rewrite (IH false Hr).
Qed.

Lemma collapse_starts_with s :
  starts_with "_" (collapse false s) = starts_with "_" s.
Proof.
  destruct s as [| c r]; simpl; [reflexivity |].
  destruct (is_sep c) eqn:Hc; simpl; [| reflexivity].
  now rewrite (sep_not_underscore c Hc).
Qed.

Lemma strip_lower_starts_with s :
  starts_with "_" (strip_leading_underscore (toLowerCase s)) = double_underscore s.
Proof.
  destruct s as [| c r]; simpl; [reflexivity |].
  rewrite lower_char_underscore.
  destruct (Ascii.eqb c "_") eqn:Hc; simpl.
  - destruct r as [| d r']; simpl; [reflexivity |]. apply lower_char_underscore.
  - rewrite lower_char_underscore, Hc. now destruct r.
Qed.

(** A lowercase string without a leading underscore is normalized once
    its separator runs are collapsed. *)
Lemma normalize_collapse w :
  all_chars not_upper w = true -> starts_with "_" w = false ->
  normalize (collapse false w) = collapse false w.
Proof.
  intros Hup Hst. rewrite normalize_eq.
  rewrite toLowerCase_fixed by (apply collapse_all_chars; [reflexivity | exact Hup]).
  assert (Hs : strip_leading_underscore (collapse false w) = collapse false w).
  { pose proof (collapse_starts_with w) as E. rewrite Hst in E.
    destruct (collapse false w) as [| c r]; simpl in *; [reflexivity |].
    now rewrite E. }
  rewrite Hs. apply collapse_fixed, collapse_not_sep.
Qed.

Lemma string_cons_neq c (s : string) : s <> String c s.
Proof.
  induction s as [| d r IH]; [discriminate |].
  intros E. injection E as E1 E2. subst d. now apply IH.
Qed.

Lemma normalize_twice_iff x :
  normalize (normalize x) = normalize x <-> double_underscore x = false.
Proof.
  pose proof (strip_lower_starts_with x) as Hpre.
  pose proof (strip_all_chars not_upper _ (toLowerCase_not_upper x)) as Hup.
  rewrite (normalize_eq x).
  set (w := strip_leading_underscore (toLowerCase x)) in *.
  destruct (double_underscore x).
  - split; [| discriminate]. intros E. exfalso.
    destruct w as [| c r]; [discriminate |].
    simpl in Hpre. apply Ascii.eqb_eq in Hpre. subst c.
    simpl in Hup. change (collapse false (String "_" r)) with (String "_"%char (collapse false r)) in E.
    rewrite normalize_eq in E.
    rewrite toLowerCase_fixed in E
      by (simpl; apply collapse_all_chars; [reflexivity | exact Hup]).
    simpl in E.
    rewrite (collapse_fixed false _ (collapse_not_sep false r)) in E.
    exact (string_cons_neq _ _ E).
  - split; [reflexivity |]. intros _. now apply normalize_collapse.
Qed.

Lemma toLowerCase_app a b :
  toLowerCase (a ++ b) = (toLowerCase a ++ toLowerCase b)%string.
Proof. induction a as [| c r IH]; simpl; [reflexivity | now rewrite IH]. Qed.

Lemma toLowerCase_sep_run run : all_chars is_sep run = true -> toLowerCase run = run.
Proof.
  intros H. apply toLowerCase_fixed.
  induction run as [| c r IH]; simpl in *; [reflexivity |].
  apply andb_true_iff in H as [Hc Hr]. now rewrite (sep_not_upper c Hc), IH.
Qed.

Lemma run_state_lower b s : run_state b (toLowerCase s) = run_state b s.
Proof.
  revert b. induction s as [| c r IH]; intros b; simpl; [reflexivity |].
  now rewrite lower_char_sep, IH.
Qed.

Lemma run_state_strip s :
  run_state false (strip_leading_underscore s) = run_state false s.
Proof.
  destruct s as [| c r]; simpl; [reflexivity |].
  destruct (Ascii.eqb_spec c "_") as [-> | _]; reflexivity.
Qed.

Lemma collapse_app b a t :
  collapse b (a ++ t) = (collapse b a ++ collapse (run_state b a) t)%string.
Proof.
  revert b. induction a as [| c r IH]; intros b; simpl; [reflexivity |].
  destruct (is_sep c); [destruct b |]; simpl; now rewrite IH.
Qed.

Lemma collapse_true_run run t :
  all_chars is_sep run = true -> collapse true (run ++ t) = collapse true t.
Proof.
  induction run as [| c r IH]; simpl; [reflexivity |].
  intros H. apply andb_true_iff in H as [Hc Hr]. rewrite Hc. now apply IH.
Qed.

Lemma collapse_true_start t :
  starts_with_sep t = false -> collapse true t = collapse false t.
Proof. destruct t as [| c r]; simpl; [reflexivity |]. now intros ->. Qed.

Lemma starts_with_sep_lower t : starts_with_sep (toLowerCase t) = starts_with_sep t.
Proof. destruct t as [| c r]; simpl; [reflexivity | apply lower_char_sep]. Qed.

Lemma collapse_run run t :
  run <> EmptyString -> all_chars is_sep run = true -> starts_with_sep t = false ->
  collapse false (run ++ t) = String "-" (collapse false t).
Proof.
  destruct run as [| c r]; [now intros N |]. intros _ H Ht. simpl in *.
  apply andb_true_iff in H as [Hc Hr]. rewrite Hc.
  now rewrite (collapse_true_run r t Hr), (collapse_true_start t Ht).
Qed.

(** A maximal separator run of the input becomes one hyphen of the
    normalized name. *)
Lemma normalize_run a run b :
  run <> EmptyString -> all_chars is_sep run = true ->
  ends_with_sep a = false -> starts_with_sep b = false ->
  normalize (a ++ run ++ b)
  = (normalize a ++ "-" ++ replace_sep_runs (toLowerCase b))%string.
Proof.
  intros Hne Hrun Ha Hb. rewrite !normalize_eq, !toLowerCase_app.
  rewrite (toLowerCase_sep_run run Hrun).
  assert (Hb' : starts_with_sep (toLowerCase b) = false)
    by now rewrite starts_with_sep_lower.
  assert (Hs : strip_leading_underscore (toLowerCase a ++ run ++ toLowerCase b)
               = (strip_leading_underscore (toLowerCase a) ++ run ++ toLowerCase b)%string).
  { destruct a as [| c r]; simpl.
    - destruct run as [| d r']; [now elim Hne |]. simpl in *.
      apply andb_true_iff in Hrun as [Hd _]. now rewrite (sep_not_underscore d Hd).
    - now destruct (Ascii.eqb (lower_char c) "_"). }
  rewrite Hs, collapse_app.
  replace (run_state false (strip_leading_underscore (toLowerCase a))) with false
    by now rewrite run_state_strip, run_state_lower.
  now rewrite (collapse_run run _ Hne Hrun Hb').
Qed.

(** C4, as stated, fails: the name that begins with two underscores loses
    one of them at each normalization. *)
Lemma normalize_not_idempotent :
  ~ (forall x, normalize (normalize x) = normalize x).
Proof. intros H. specialize (H "__a"). vm_compute in H. discriminate. Qed.

(** C4 (amended): normalizing twice is normalizing once exactly for the
    names that do not begin with two underscores. *)
Theorem normalize_idempotent (x : string) :
  normalize (normalize x) = normalize x <-> double_underscore x = false.
Proof. apply normalize_twice_iff. Qed.

Lemma normalize_idempotent_witness :
  normalize (normalize "My Orders/2024") = normalize "My Orders/2024".
Proof. apply (proj2 (normalize_idempotent "My Orders/2024")). reflexivity. Defined.

(** C5, as stated, fails: a normalized name can begin with an underscore. *)
Lemma normalize_leading_underscore :
  ~ (forall s, clean_name (normalize s)).
Proof.
  intros H. destruct (H "__a") as (_ & Hu & _). vm_compute in Hu. discriminate.
Qed.

(** C5 (amended): a normalized name has no uppercase character and no
    whitespace, slash or backslash, each maximal run of these separators in
    the input having become one hyphen; it begins with an underscore
    exactly when the input begins with two underscores. *)
Theorem normalize_shape (s : string) :
  all_chars not_upper (normalize s) = true
  /\ all_chars not_sep (normalize s) = true
  /\ starts_with "_" (normalize s) = double_underscore s
  /\ (forall a run b,
        s = (a ++ run ++ b)%string ->
        run <> EmptyString -> all_chars is_sep run = true ->
        ends_with_sep a = false -> starts_with_sep b = false ->
        normalize s
        = (normalize a ++ "-" ++ replace_sep_runs (toLowerCase b))%string).
Proof.
  repeat split.
  - rewrite normalize_eq. apply collapse_all_chars; [reflexivity |].
    apply strip_all_chars, toLowerCase_not_upper.
  - rewrite normalize_eq. apply collapse_not_sep.
  - rewrite normalize_eq, collapse_starts_with. apply strip_lower_starts_with.
  - intros a run b -> Hne Hrun Ha Hb. now apply normalize_run.
Qed.

Lemma normalize_shape_witness :
  normalize "My Orders/2024" = "my-orders-2024".
Proof.
  destruct (normalize_shape "My Orders/2024") as (_ & _ & _ & H).
  rewrite (H "My Orders" "/" "2024"); try reflexivity. discriminate.
Defined.

(** ** Events of the synchronous code *)

Lemma bind_trace {A B} (m : M A) (f : A -> M B) :
  fst (bind m f)
  = fst m ++ match snd m with Ok a => fst (f a) | Throw _ => [] end.
Proof.
  destruct m as [t [a | e]]; simpl.
  - now destruct (f a).
  - now rewrite app_nil_r.
Qed.

Lemma bind_ok {A B} (m : M A) (f : A -> M B) t b :
  bind m f = (t, Ok b) ->
  exists t1 a t2, m = (t1, Ok a) /\ f a = (t2, Ok b) /\ t = t1 ++ t2.
Proof.
  destruct m as [t1 [a | e]]; simpl; [| discriminate].
  destruct (f a) as [t2 r] eqn:E. intros [= <- ->].
  now exists t1, a, t2.
Qed.

Lemma bind_ret_l {A B} (a : A) (f : A -> M B) : bind ([], Ok a) f = f a.
Proof. unfold bind. now destruct (f a). Qed.

Lemma bind_lift {A B} (r : result A) (f : A -> M B) :
  bind (lift r) f = match r with Ok a => f a | Throw e => ([], Throw e) end.
Proof.
  destruct r as [a | e]; simpl; [| reflexivity]. now destruct (f a).
Qed.

Lemma only_warnings_app t u :
  only_warnings t -> only_warnings u -> only_warnings (t ++ u).
Proof. intros; now apply Forall_app. Qed.

Lemma clean_key_warnings rt msg key : only_warnings (fst (clean_key rt msg key)).
Proof.
  unfold clean_key.
  destruct (has_field key msg); [| constructor].
  destruct (has_field "hasOwnProperty" msg); [constructor |].
  destruct (isFieldNameValid key); cbn [negb]; [constructor |].
  rewrite bind_lift. destruct (js_substring rt 1 _ key); repeat constructor.
Qed.

Lemma clean_keys_warnings rt keys :
  forall msg, only_warnings (fst (clean_keys rt keys msg)).
Proof.
  induction keys as [| key rest IH]; intros msg; simpl; [constructor |].
  rewrite bind_trace. apply only_warnings_app; [apply clean_key_warnings |].
  destruct (snd (clean_key rt msg key)); [apply IH | constructor].
Qed.

Lemma cleanMessage_warnings rt msg : only_warnings (fst (cleanMessage rt msg)).
Proof.
  destruct msg; simpl; try constructor.
  rewrite bind_trace. apply only_warnings_app; [apply clean_keys_warnings |].
  destruct (snd (clean_keys rt (field_names fields) fields)); constructor.
Qed.

Lemma parsed_input_silent rt msg root : fst (parsed_input rt msg root) = [].
Proof.
  assert (H : forall text, fst (parse_text rt text) = []).
  { intros text. unfold parse_text. now destruct (JSON_parse rt text). }
  unfold parsed_input.
  destruct (negb (typeof_object msg)); [| reflexivity].
  rewrite bind_lift. destruct (ToString msg) as [text | e]; [| reflexivity].
  destruct (JSON_parse rt text) as [p |]; [| apply H].
  destruct (negb (typeof_object p)); [| reflexivity].
  rewrite bind_lift. destruct (ToString p) as [ptext | e]; [| reflexivity].
  destruct (JSON_parse rt (wrap_text root ptext)); [reflexivity | apply H].
Qed.

Lemma parseMessage_warnings rt msg root :
  only_warnings (fst (parseMessage rt msg root)).
Proof.
  unfold parseMessage. rewrite bind_trace.
  apply only_warnings_app.
  - rewrite parsed_input_silent. constructor.
  - match goal with |- context [snd ?m] => destruct (snd m) end;
      [apply cleanMessage_warnings | constructor].
Qed.

Lemma count_app p t u : count p (t ++ u) = count p t + count p u.
Proof. unfold count. now rewrite filter_app, length_app. Qed.

Lemma count_warnings p t :
  (forall e, is_warning e = true -> p e = false) ->
  only_warnings t -> count p t = 0.
Proof.
  intros Hp H. unfold count. induction H as [| e t He _ IH]; [reflexivity |].
  simpl. now rewrite (Hp e He).
Qed.

Lemma warnings_no_insert e : is_warning e = true -> is_insert e = false.
Proof. now destruct e. Qed.
Lemma warnings_no_create e : is_warning e = true -> is_create e = false.
Proof. now destruct e. Qed.
Lemma warnings_no_call e : is_warning e = true -> is_backend_call e = false.
Proof. now destruct e. Qed.
Lemma warnings_no_error e : is_warning e = true -> is_error_report e = false.
Proof. now destruct e. Qed.

Lemma backend_calls_warnings t : only_warnings t -> backend_calls t = [].
Proof.
  intros H. unfold backend_calls. induction H as [| e t He _ IH]; [reflexivity |].
  simpl. now rewrite (warnings_no_call e He).
Qed.

(** ** Insert with lazy creation of the database *)

Section InsertFacts.
Context {St : Type}.
Variable rt : Runtime.
Variable be : Backend St.

Lemma insertDocument_missing (node : OutNode) (doc : value) (n : nat) :
  always_missing be ->
  forall st, exists st' e body,
    insertDocument be node doc n st
    = (st', retry_cycles (database node) doc n ++ [CallInsert (database node) doc],
       (Some e, body))
    /\ status_code e = 404%Z.
Proof.
  intros Hm. induction n as [| n IH]; intros st.
  - destruct (Hm st (database node) doc) as (st1 & e & body & E & He).
    exists st1, e, body. simpl. now rewrite E.
  - destruct (Hm st (database node) doc) as (st1 & e & body & E & He).
    simpl. rewrite E, He. simpl.
    destruct (db_create be st1 (database node)) as [st2 cerr].
    destruct (IH st2) as (st3 & e' & body' & E' & He').
    exists st3, e', body'. now rewrite E'.
Qed.

Lemma insertDocument_present (node : OutNode) (doc : value) (n : nat) (st : St) :
  present_at be st (database node) doc ->
  insertDocument be node doc n st
  = (fst (db_insert be st (database node) doc),
     [CallInsert (database node) doc],
     snd (db_insert be st (database node) doc)).
Proof.
  unfold present_at.
  destruct n; simpl;
    destruct (db_insert be st (database node) doc) as [st1 [[e |] body]];
    simpl; try reflexivity.
  intros He. apply Z.eqb_neq in He. now rewrite He.
Qed.

Lemma handleMessage_insert node msg st w doc :
  operation node = "insert" ->
  insert_parses rt node msg w doc ->
  handleMessage rt be node msg st
  = (let '(st', t, (err, _)) := insertDocument be node doc MAX_ATTEMPTS st in
     mkOutcome st' (w ++ t ++ insert_callback err) None).
Proof.
  intros Hop Hp. unfold handleMessage, insert_parses in *.
  rewrite Hop, String.eqb_refl.
  destruct (insert_input node msg) as [m root]. cbn [fst snd] in Hp. rewrite Hp.
  unfold after.
  now destruct (insertDocument be node doc MAX_ATTEMPTS st) as [[st' t] [err b]].
Qed.

(** C1: with the database missing at every attempt, an insert makes
    three rounds of insert-then-create and a fourth insert, four inserts
    and three creations in all, and ends in the report of the 404 error;
    with the database present at the first attempt it makes one insert
    and no creation. *)
Theorem insert_retry_bound (node : OutNode) (msg : obj) (st : St)
    (w : list event) (doc : value) :
  operation node = "insert" ->
  insert_parses rt node msg w doc ->
  let o := handleMessage rt be node msg st in
  (always_missing be ->
     exists e,
       status_code e = 404%Z
       /\ trace o
          = w ++ retry_cycles (database node) doc 3
              ++ [CallInsert (database node) doc;
                  NodeError ("Failed to insert document: " ++ description e)
                            (BackendErr e)]
       /\ count is_insert (trace o) = 4
       /\ count is_create (trace o) = 3)
  /\ (present_at be st (database node) doc ->
        backend_calls (trace o) = [CallInsert (database node) doc]
        /\ count is_insert (trace o) = 1
        /\ count is_create (trace o) = 0).
Proof.
  intros Hop Hp o. subst o. rewrite (handleMessage_insert _ _ _ _ _ Hop Hp).
  assert (Hw : only_warnings w).
  { pose proof (parseMessage_warnings rt (fst (insert_input node msg))
                  (snd (insert_input node msg))) as H.
    unfold insert_parses in Hp. now rewrite Hp in H. }
  split.
  - intros Hm.
    destruct (insertDocument_missing node doc MAX_ATTEMPTS Hm st)
      as (st' & e & body & E & He).
    rewrite E. exists e. simpl. split; [exact He |]. split; [reflexivity |].
    rewrite !count_app.
    rewrite (count_warnings _ _ warnings_no_insert Hw).
    rewrite (count_warnings _ _ warnings_no_create Hw).
    split; reflexivity.
  - intros Hpr. rewrite (insertDocument_present node doc MAX_ATTEMPTS st Hpr).
    destruct (db_insert be st (database node) doc) as [st1 [err body]]. simpl.
    unfold backend_calls. rewrite filter_app, !count_app.
    fold (backend_calls w). rewrite (backend_calls_warnings w Hw).
    rewrite (count_warnings _ _ warnings_no_insert Hw).
    rewrite (count_warnings _ _ warnings_no_create Hw).
    destruct err; repeat split; reflexivity.
Qed.

End InsertFacts.

Lemma insert_retry_bound_witness :
  count is_insert
    (trace (handleMessage example_runtime
              (fixed_backend (Some (mkError 404 "no_db_file")) VUndefined)
              (mkOutNode "insert" true "orders")
              [("payload", VObj [("_secret", VStr "x")])] tt)) = 4
  /\ count is_insert
       (trace (handleMessage example_runtime
                 (fixed_backend None (VObj [("ok", VBool true)]))
                 (mkOutNode "insert" true "orders")
                 [("payload", VObj [("_secret", VStr "x")])] tt)) = 1.
Proof.
  split.
  - destruct (insert_retry_bound example_runtime
                (fixed_backend (Some (mkError 404 "no_db_file")) VUndefined)
                (mkOutNode "insert" true "orders")
                [("payload", VObj [("_secret", VStr "x")])] tt
                [NodeWarn "Property '_secret' renamed to 'secret'." None]
                (VObj [("secret", VStr "x")])
                eq_refl eq_refl) as [H _].
    destruct H as (e & _ & _ & Hi & _); [| exact Hi].
    intros st db doc. exists tt, (mkError 404 "no_db_file"), VUndefined.
    destruct st. split; reflexivity.
  - destruct (insert_retry_bound example_runtime
                (fixed_backend None (VObj [("ok", VBool true)]))
                (mkOutNode "insert" true "orders")
                [("payload", VObj [("_secret", VStr "x")])] tt
                [NodeWarn "Property '_secret' renamed to 'secret'." None]
                (VObj [("secret", VStr "x")])
                eq_refl eq_refl) as [_ H].
    destruct H as (_ & Hi & _); [exact I | exact Hi].
Defined.

(** ** Fields of an object *)

Lemma has_field_In k o : has_field k o = true <-> In k (field_names o).
Proof.
  unfold has_field. induction o as [| [k' v] r IH]; simpl.
  - split; [discriminate | tauto].
  - destruct (String.eqb_spec k' k) as [-> | N].
    + split; auto.
    + rewrite IH. split; [auto | intros [E | H]; [now elim N | exact H]].
Qed.

Lemma has_field_false k o : has_field k o = false <-> ~ In k (field_names o).
Proof.
  rewrite <- has_field_In. destruct (has_field k o); split; try easy.
Qed.

Lemma set_field_names k v o k' :
  In k' (field_names (set_field k v o)) -> k' = k \/ In k' (field_names o).
Proof.
  induction o as [| [k0 v0] r IH]; simpl.
  - intros [E | []]; auto.
  - destruct (String.eqb_spec k0 k) as [-> | N]; simpl.
    + tauto.
    + intros [E | H]; [auto | destruct (IH H); auto].
Qed.

Lemma delete_field_names k o k' :
  In k' (field_names (delete_field k o)) -> In k' (field_names o) /\ k' <> k.
Proof.
  unfold delete_field, field_names. rewrite in_map_iff.
  intros ([k0 v0] & E & H). simpl in E. subst k0.
  apply filter_In in H as [H N]. simpl in N.
  split; [apply in_map_iff; now exists (k', v0) |].
  intros ->. now rewrite String.eqb_refl in N.
Qed.

Lemma get_field_set_same k v o : get_field k (set_field k v o) = Some v.
Proof.
  induction o as [| [k0 v0] r IH]; simpl.
  - now rewrite String.eqb_refl.
  - destruct (String.eqb_spec k0 k) as [-> | N]; simpl.
    + now rewrite String.eqb_refl.
    + apply String.eqb_neq in N. now rewrite N.
Qed.

Lemma get_field_set_other k k' v o :
  k' <> k -> get_field k' (set_field k v o) = get_field k' o.
Proof.
  intros N. induction o as [| [k0 v0] r IH]; simpl.
  - apply not_eq_sym, String.eqb_neq in N. now rewrite N.
  - destruct (String.eqb_spec k0 k) as [-> | N0]; simpl.
    + apply not_eq_sym, String.eqb_neq in N. now rewrite N.
    + now rewrite IH.
Qed.

(** ** The sanitizer *)

Lemma substring_all s : substring 0 (String.length s) s = s.
Proof. induction s as [| c r IH]; simpl; [reflexivity | now rewrite IH]. Qed.

(** Without a [length] field on the message, the new key is the old one
    without its first character. *)
Lemma js_substring_tail rt key : js_substring rt 1 VUndefined key = Ok (tail key).
Proof.
  unfold js_substring, end_index, and_then, substring_at, clamp. f_equal.
  destruct key as [| c r]; [reflexivity |].
  cbn [String.length tail].
  replace (Z.min (Z.min (Z.max 1 0) (Z.of_nat (S (String.length r))))
                 (Z.of_nat (S (String.length r)))) with 1%Z by lia.
  replace (Z.max (Z.min (Z.max 1 0) (Z.of_nat (S (String.length r))))
                 (Z.of_nat (S (String.length r))) - 1)%Z
    with (Z.of_nat (String.length r)) by lia.
  rewrite Nat2Z.id. change (Z.to_nat 1) with 1. simpl. apply substring_all.
Qed.

Lemma double_underscore_invalid k :
  double_underscore k = true -> isFieldNameValid k = false.
Proof.
  destruct k as [| c [| d r]]; try discriminate. simpl.
  intros H. apply andb_true_iff in H as [Hc Hd].
  apply Ascii.eqb_eq in Hc, Hd. subst c d. reflexivity.
Qed.

Lemma invalid_starts_with k : isFieldNameValid k = false -> starts_with "_" k = true.
Proof.
  unfold isFieldNameValid. destruct (starts_with "_" k); [reflexivity | discriminate].
Qed.

Lemma tail_of_invalid k :
  isFieldNameValid k = false -> k = String "_" (tail k).
Proof.
  intros H. apply invalid_starts_with in H.
  destruct k as [| c r]; [discriminate |]. simpl in *.
  apply Ascii.eqb_eq in H. now subst c.
Qed.

Lemma tail_valid k :
  isFieldNameValid k = false -> double_underscore k = false ->
  isFieldNameValid (tail k) = true.
Proof.
  intros H D. rewrite (tail_of_invalid k H) in D. simpl in D.
  unfold isFieldNameValid.
  destruct (tail k) as [| d r]; [reflexivity |]. simpl in *. now rewrite D.
Qed.

Section CleanFacts.
Variable rt : Runtime.
Variable names : list string.
Hypothesis no_length : ~ In "_length" names.

Lemma clean_key_settles msg key rest t msg' :
  In key names ->
  has_field "length" msg = false ->
  names_settled names (key :: rest) msg ->
  clean_key rt msg key = (t, Ok msg') ->
  names_settled names rest msg' /\ has_field "length" msg' = false.
Proof.
  intros Hkey Hlen HP. unfold clean_key.
  destruct (has_field key msg) eqn:Hhas.
  - destruct (has_field "hasOwnProperty" msg); [discriminate |].
    destruct (isFieldNameValid key) eqn:Hv; cbn [negb].
    + intros [= <- <-]. split; [| exact Hlen].
      intros k Hk. destruct (HP k Hk) as [V | [[<- | R] | S]]; auto.
    + assert (Hund : field_or_undefined "length" msg = VUndefined).
      { unfold field_or_undefined. unfold has_field in Hlen.
        now destruct (get_field "length" msg). }
      rewrite Hund, js_substring_tail, bind_lift. simpl.
      intros [= <- <-]. split.
      * intros k Hk. apply delete_field_names in Hk as [Hk Hne].
        apply set_field_names in Hk as [-> | Hk].
        -- destruct (double_underscore key) eqn:D.
           ++ right; right. now exists key.
           ++ left. now apply tail_valid.
        -- destruct (HP k Hk) as [V | [[E | R] | S]];
             [now left | now elim Hne | right; now left | right; now right].
      * apply has_field_false. intros Hin.
        apply delete_field_names in Hin as [Hin _].
        apply set_field_names in Hin as [E | Hin].
        -- apply no_length. rewrite (tail_of_invalid key Hv), <- E in Hkey. exact Hkey.
        -- now apply has_field_false in Hlen.
  - intros [= <- <-]. split; [| exact Hlen].
    intros k Hk. destruct (HP k Hk) as [V | [[<- | R] | S]]; auto.
    apply has_field_In in Hk. congruence.
Qed.

Lemma clean_keys_settles rest :
  forall msg t msg',
    (forall k, In k rest -> In k names) ->
    has_field "length" msg = false ->
    names_settled names rest msg ->
    clean_keys rt rest msg = (t, Ok msg') ->
    names_settled names [] msg'.
Proof.
  induction rest as [| key rest IH]; intros msg t msg' Hsub Hlen HP; simpl.
  - now intros [= <- <-].
  - intros H. apply bind_ok in H as (t1 & m1 & t2 & E1 & E2 & _).
    destruct (clean_key_settles msg key rest t1 m1) as [HP1 Hlen1]; auto.
    + apply Hsub. now left.
    + apply (IH m1 t2 msg'); auto. intros k Hk. apply Hsub. now right.
Qed.

End CleanFacts.

Lemma parseMessage_object rt o root :
  parseMessage rt (VObj o) root = cleanMessage rt (VObj o).
Proof.
  unfold parseMessage, parsed_input. simpl negb. cbv iota.
  unfold bind at 1, ret at 1. now destruct (cleanMessage rt (VObj o)).
Qed.

Lemma cleanMessage_object rt o w o' :
  cleanMessage rt (VObj o) = (w, Ok (VObj o')) ->
  clean_keys rt (field_names o) o = (w, Ok o').
Proof.
  simpl. intros H. apply bind_ok in H as (t1 & a & t2 & E1 & E2 & ->).
  unfold ret in E2. injection E2 as <- <-. now rewrite app_nil_r.
Qed.

(** C2, as stated, fails: of a field name with two leading underscores
    one underscore is left, and the result is not looked at again. *)
Lemma sanitize_leaves_prefix :
  ~ (forall rt m fallback w m',
       parseMessage rt (VObj m) fallback = (w, Ok (VObj m')) ->
       forall k, In k (field_names m') -> isFieldNameValid k = true).
Proof.
  intros H.
  specialize (H example_runtime [("__a", VNum 1)] "payload"
                [NodeWarn "Property '__a' renamed to '_a'." None]
                [("_a", VNum 1)] eq_refl "_a" (or_introl eq_refl)).
  discriminate H.
Qed.

(** C2 (amended): for a mapping without a field named [length],
    [_length] or [___proto__], each field name of the sanitized document
    is valid, or is the rest of a field name of the mapping that begins
    with two underscores; when no field name begins with two underscores,
    every field name of the result is valid.  (Without a [length] field
    the new name is the old one less its first character, so that no
    field is stored under [__proto__] when [___proto__] is not a name of
    the mapping.) *)
Theorem sanitize_field_names (rt : Runtime) (m : obj) (fallback : string)
    (w : list event) (m' : obj) :
  has_field "length" m = false ->
  has_field "_length" m = false ->
  has_field "___proto__" m = false ->
  parseMessage rt (VObj m) fallback = (w, Ok (VObj m')) ->
  (forall k, In k (field_names m') ->
     isFieldNameValid k = true \/ stripped_from (field_names m) k)
  /\ ((forall k0, In k0 (field_names m) -> double_underscore k0 = false) ->
      forall k, In k (field_names m') -> isFieldNameValid k = true).
Proof.
  intros Hlen Hlen' _ Hp. rewrite parseMessage_object in Hp.
  apply cleanMessage_object in Hp.
  assert (HP : names_settled (field_names m) [] m').
  { apply (clean_keys_settles rt (field_names m)) with
      (rest := field_names m) (msg := m) (t := w); auto.
    - now apply has_field_false.
    - intros k Hk. right; now left. }
  assert (H1 : forall k, In k (field_names m') ->
                 isFieldNameValid k = true \/ stripped_from (field_names m) k).
  { intros k Hk. destruct (HP k Hk) as [V | [[] | S]]; auto. }
  split; [exact H1 |].
  intros Hno k Hk. destruct (H1 k Hk) as [V | (k0 & Hin & D & _)]; [exact V |].
  rewrite (Hno k0 Hin) in D. discriminate.
Qed.

(** With a [length] field on the message the end of the substring is
    that field, not the length of the key: the new name can keep the
    underscore. *)
Lemma clean_with_length_field :
  parseMessage example_runtime (VObj [("length", VNum 0); ("_x", VNum 1)]) "payload"
  = ([NodeWarn "Property '_x' renamed to '_'." None],
     Ok (VObj [("length", VNum 0); ("_", VNum 1)])).
Proof. reflexivity. Qed.

Lemma sanitize_field_names_witness :
  Forall (fun k => isFieldNameValid k = true)
    (field_names [("_id", VStr "a"); ("secret", VStr "x")]).
Proof.
  apply Forall_forall.
  refine (proj2 (sanitize_field_names example_runtime
                   [("_secret", VStr "x"); ("_id", VStr "a")] "payload"
                   [NodeWarn "Property '_secret' renamed to 'secret'." None]
                   [("_id", VStr "a"); ("secret", VStr "x")]
                   eq_refl eq_refl eq_refl eq_refl) _).
  intros k0 [<- | [<- | []]]; reflexivity.
Defined.

(** ** The delete branch *)

Lemma parsed_input_null_text rt s root :
  JSON_parse rt s = Some VNull ->
  parsed_input rt (VStr s) root = ([], Ok VNull).
Proof. intros H. unfold parsed_input. cbn. now rewrite H. Qed.

(** C6 (defect of the code): a delete request whose payload is a text
    that parses to [null], as the text [null] does, is not answered by the
    precondition error.  The extracted document is [null], which passes
    the test [typeof msg !== "object"] of [parseMessage] and has neither
    field; the test ["_rev" in doc] then throws a TypeError inside the
    input handler: the node reports nothing, and calls the backend not at
    all. *)
Theorem delete_null_payload_throws {St} (rt : Runtime) (be : Backend St)
    (node : OutNode) (msg : obj) (st : St) (s : string) :
  operation node = "delete" ->
  field_or_undefined "payload" msg = VStr s ->
  s <> EmptyString ->
  JSON_parse rt s = Some VNull ->
  handleMessage rt be node msg st = mkOutcome st [] (Some TypeError).
Proof.
  intros Hop Hpay Hs Hparse. unfold handleMessage, delete_input, js_or.
  rewrite Hop, Hpay.
  change ("delete" =? "insert") with false. change ("delete" =? "delete") with true.
  cbv iota. cbn [truthy]. apply String.eqb_neq in Hs. rewrite Hs. cbn [negb].
  unfold parseMessage. rewrite (parsed_input_null_text rt s EmptyString Hparse).
  reflexivity.
Qed.

Lemma delete_null_payload_throws_witness :
  handleMessage null_runtime (fixed_backend None VUndefined)
    (mkOutNode "delete" false "orders") [("payload", VStr "null")] tt
  = mkOutcome tt [] (Some TypeError).
Proof.
  refine (delete_null_payload_throws null_runtime (fixed_backend None VUndefined)
            (mkOutNode "delete" false "orders") [("payload", VStr "null")] tt
            "null" eq_refl eq_refl _ eq_refl).
  discriminate.
Defined.

(** ** Extraction on the delete path *)

Lemma clean_key_valid rt o key :
  has_field "hasOwnProperty" o = false ->
  isFieldNameValid key = true ->
  clean_key rt o key = ([], Ok o).
Proof.
  intros Hown Hk. unfold clean_key. rewrite Hown, Hk.
  now destruct (has_field key o).
Qed.

Lemma clean_keys_valid rt o keys :
  has_field "hasOwnProperty" o = false ->
  forallb isFieldNameValid keys = true ->
  clean_keys rt keys o = ([], Ok o).
Proof.
  intros Hown. induction keys as [| key rest IH]; [reflexivity |].
  cbn [forallb clean_keys].
  intros H. apply andb_true_iff in H as [Hk Hr].
  rewrite (clean_key_valid rt o key Hown Hk), bind_ret_l. exact (IH Hr).
Qed.







(** ** The read node *)

Lemma field_set_other k k' v o :
  k' <> k -> field_or_undefined k' (set_field k v o) = field_or_undefined k' o.
Proof. intros N. unfold field_or_undefined. now rewrite get_field_set_other. Qed.

Lemma getDocumentId_silent payload : fst (In.getDocumentId payload) = [].
Proof.
  unfold In.getDocumentId.
  destruct payload as [| | b | n | s | l | o]; try reflexivity. simpl.
  destruct (has_field "_id" o); simpl.
  - now destruct (truthy (field_or_undefined "id" o)).
  - destruct (has_field "id" o); simpl; [| reflexivity].
    now destruct (truthy (field_or_undefined "id" o)).
Qed.

Lemma sendDocumentOnPayload_other node e body msg :
  description e <> "missing" ->
  In.sendDocumentOnPayload node (Some e) body msg
  = ([NodeError (description e) (BackendErr e);
      NodeSend (set_field "payload" VNull msg)], Ok tt).
Proof.
  intros N. apply String.eqb_neq in N.
  unfold In.sendDocumentOnPayload. now rewrite N.
Qed.

(** The warning is built from the identifier the node holds when the
    callback runs; nothing is warned or sent when it has no text. *)
Lemma sendDocumentOnPayload_missing node e body msg :
  description e = "missing" ->
  In.sendDocumentOnPayload node (Some e) body msg
  = match ToString (In.inputId node) with
    | Ok text =>
        ([NodeWarn (In.not_found text (In.database node)) (Some e);
          NodeSend (set_field "payload" VNull msg)], Ok tt)
    | Throw x => ([], Throw x)
    end.
Proof.
  intros E. unfold In.sendDocumentOnPayload, In.not_found_text.
  rewrite E, String.eqb_refl.
  now destruct (ToString (In.inputId node)).
Qed.

Section ReadFacts.
Context {St : Type}.
Variable be : Backend St.

Lemma process_request node msg st t node' r st' err body :
  In.on_input node msg = (t, Ok (node', Some r)) ->
  In.perform be node' r st = (st', (err, body)) ->
  snd (In.process be node msg st)
  = mkOutcome st'
      (t ++ In.call_event node' r
         :: fst (In.sendDocumentOnPayload node' err body msg))
      (match snd (In.sendDocumentOnPayload node' err body msg) with
       | Throw x => Some x
       | Ok _ => None
       end).
Proof.
  intros Hin Hpf. unfold In.process. rewrite Hin, Hpf.
  now destruct (In.sendDocumentOnPayload node' err body msg).
Qed.

Lemma on_input_by_id node msg id :
  In.search node = "_id_" ->
  snd (In.getDocumentId (field_or_undefined "payload" msg)) = Ok id ->
  In.on_input node msg = ([], Ok (In.set_inputId node id, Some (In.ReqGet id))).
Proof.
  intros Hs Hid. unfold In.on_input. rewrite Hs, String.eqb_refl.
  pose proof (getDocumentId_silent (field_or_undefined "payload" msg)) as Ht.
  destruct (In.getDocumentId (field_or_undefined "payload" msg)) as [t r].
  simpl in *. now subst.
Qed.


(** C9 (amended): after a backend error whose description is not
    "missing", on any of the three read paths, the node reports the error
    and then still sends the message, with a null payload; nothing is
    thrown.  After a "missing" error it warns and sends likewise when the
    identifier the node holds has a text, and throws the TypeError of the
    conversion, with nothing reported or sent, when it has none.  The
    callback does so for whatever node it finds, and the run of one
    message with it. *)
Theorem read_error_still_sends (node node' : In.Node) (msg : obj) (st st' : St)
    (t : list event) (r : In.request) (e : error) (body : value) :
  In.on_input node msg = (t, Ok (node', Some r)) ->
  In.perform be node' r st = (st', (Some e, body)) ->
  let o := snd (In.process be node msg st) in
  (description e <> "missing" ->
     (forall held,
        In.sendDocumentOnPayload held (Some e) body msg
        = ([NodeError (description e) (BackendErr e);
            NodeSend (set_field "payload" VNull msg)], Ok tt))
     /\ trace o
        = t ++ [In.call_event node' r;
                NodeError (description e) (BackendErr e);
                NodeSend (set_field "payload" VNull msg)]
     /\ thrown o = None)
  /\ (description e = "missing" ->
      (forall text,
         ToString (In.inputId node') = Ok text ->
         exists warning,
           trace o
           = t ++ [In.call_event node' r;
                   NodeWarn warning (Some e);
                   NodeSend (set_field "payload" VNull msg)]
           /\ thrown o = None)
      /\ (forall x,
            ToString (In.inputId node') = Throw x ->
            trace o = t ++ [In.call_event node' r] /\ thrown o = Some x)).
Proof.
  intros Hin Hpf o. subst o. rewrite (process_request _ _ _ _ _ _ _ _ _ Hin Hpf).
  cbn [trace thrown]. split.
  - intros N. split; [intros held; now apply sendDocumentOnPayload_other |].
    rewrite (sendDocumentOnPayload_other _ _ _ _ N). split; reflexivity.
  - intros E. rewrite (sendDocumentOnPayload_missing _ _ _ _ E). split.
    + intros text ->. eexists. split; reflexivity.
    + intros x ->. split; reflexivity.
Qed.

End ReadFacts.


(** With two lookups in flight the field [inputId] is that of the second
    when the callback of the first runs: both warnings name the second
    identifier. *)
Lemma overlapped_lookups_share_identifier :
  In.process_overlapped (fixed_backend (Some (mkError 404 "missing")) VUndefined)
    (In.mkNode "orders" "_id_" EmptyString EmptyString (VStr EmptyString))
    [("payload", VStr "a")] [("payload", VStr "b")] tt
  = [CallGet "orders" (VStr "a");
     CallGet "orders" (VStr "b");
     NodeWarn "Document 'b' not found in database 'orders'."
              (Some (mkError 404 "missing"));
     NodeSend [("payload", VNull)];
     NodeWarn "Document 'b' not found in database 'orders'."
              (Some (mkError 404 "missing"));
     NodeSend [("payload", VNull)]].
Proof. reflexivity. Qed.


(** C9, as stated, fails: [node.send] is reached after an error that is
    not "missing". *)
Lemma read_error_does_not_halt :
  ~ (forall (node : In.Node) (msg : obj) (e : error) (body : value),
       description e <> "missing" ->
       count is_send
         (trace (snd (In.process (fixed_backend (Some e) body) node msg tt))) = 0).
Proof.
  intros H.
  specialize (H (In.mkNode "orders" "_id_" EmptyString EmptyString (VStr EmptyString))
                [("payload", VStr "doc1")]
                (mkError 401 "unauthorized") VUndefined).
  vm_compute in H. discriminate H. discriminate.
Qed.

Lemma read_error_still_sends_witness :
  trace (snd (In.process
                (fixed_backend (Some (mkError 401 "unauthorized")) VUndefined)
                (In.mkNode "orders" "_all_" EmptyString EmptyString (VStr EmptyString))
                [("payload", VStr "go")] tt))
  = [CallList "orders" (VObj [("include_docs", VBool true)]);
     NodeError "unauthorized" (BackendErr (mkError 401 "unauthorized"));
     NodeSend [("payload", VNull)]].
Proof.
  refine (proj1 (proj2 (proj1
           (read_error_still_sends
              (fixed_backend (Some (mkError 401 "unauthorized")) VUndefined)
              (In.mkNode "orders" "_all_" EmptyString EmptyString (VStr EmptyString))
              (In.mkNode "orders" "_all_" EmptyString EmptyString (VStr EmptyString))
              [("payload", VStr "go")] tt tt []
              (In.ReqList (VObj [("include_docs", VBool true)]))
              (mkError 401 "unauthorized") VUndefined eq_refl eq_refl) _))).
  discriminate.
Defined.

(** ** Options of the indexed search *)

Lemma search_query_result o :
  exists r,
    (let q1 := field_or_undefined "query" o in
     if truthy q1 then ret q1
     else
       let q2 := field_or_undefined "q" o in
       if truthy q2 then ret q2 else In.formatSearchQuery (VObj o))
    = ([], r)
    /\ (query_given o = true -> exists q, r = Ok q)
    /\ (query_given o = false ->
        r = match In.query_text o EmptyString with
            | Ok text => Ok (VStr (trim text))
            | Throw x => Throw x
            end).
Proof.
  cbv zeta. unfold query_given.
  destruct (truthy (field_or_undefined "query" o)).
  { eexists. split; [reflexivity |]. split; [now eexists | discriminate]. }
  destruct (truthy (field_or_undefined "q" o)).
  { eexists. split; [reflexivity |]. split; [now eexists | discriminate]. }
  unfold In.formatSearchQuery, in_op, get_prop. cbn [typeof_object orb].
  unfold ret at 1. rewrite bind_ret_l.
  destruct (has_field "q" o).
  { eexists. split; [reflexivity |]. split; [now eexists | discriminate]. }
  rewrite bind_lift. cbn [In.enumerable_fields].
  destruct (In.query_text o EmptyString) as [text | x].
  - eexists. split; [reflexivity |]. split; [now eexists | reflexivity].
  - eexists. split; [reflexivity |]. split; [discriminate | reflexivity].
Qed.

(** C8, as stated, fails: a caller's [include_docs: false] is replaced by
    the default. *)
Lemma search_overrides_falsy_option :
  ~ (forall o v o',
       get_field "include_docs" o = Some v ->
       In.search_options (VObj o) = ([], Ok o') ->
       get_field "include_docs" o' = Some v).
Proof.
  intros H.
  specialize (H [("q", VStr "x"); ("include_docs", VBool false)] (VBool false)
                _ eq_refl eq_refl).
  discriminate H.
Qed.

(** C8 (amended): in the indexed search of a mapping payload, when the
    caller names the query or every field of the payload has a text, the
    options sent carry the caller's [include_docs] and [limit] when these
    are truthy, and the defaults [true] and [200] when they are unset or
    falsy; a truthy [sort] is sent as its JSON text, a falsy one as it is.
    When the caller names no query and a field of the payload has no
    text, the handler throws the TypeError of the conversion and sends
    nothing to the backend. *)
Theorem search_option_defaults (node : In.Node) (msg o : obj) :
  In.search node = "_idx_" ->
  field_or_undefined "payload" msg = VObj o ->
  (query_given o = true \/ (exists text, In.query_text o EmptyString = Ok text) ->
   exists o',
     In.on_input node msg
     = ([], Ok (node, Some (In.ReqSearch (In.design node) (In.index node) (VObj o'))))
     /\ get_field "include_docs" o'
        = Some (js_or (field_or_undefined "include_docs" o) (VBool true))
     /\ get_field "limit" o'
        = Some (js_or (field_or_undefined "limit" o) (VNum 200))
     /\ get_field "sort" o'
        = (if truthy (field_or_undefined "sort" o)
           then Some (VStr (JSON_stringify (field_or_undefined "sort" o)))
           else get_field "sort" o))
  /\ (query_given o = false ->
      forall x, In.query_text o EmptyString = Throw x ->
      In.on_input node msg = ([], Throw x)).
Proof.
  intros Hs Hp. unfold In.on_input. rewrite Hs, Hp.
  change ("_idx_" =? "_id_") with false. change ("_idx_" =? "_idx_") with true.
  cbv iota. unfold In.search_options, In.options_of.
  destruct (search_query_result o) as (r & Hq & Hgiven & Htext).
  cbv zeta in Hq. split.
  - intros Hret.
    unfold bind at 2. unfold ret at 1. unfold bind at 2. rewrite Hq.
    assert (Hr : exists q, r = Ok q).
    { destruct (query_given o); [now apply Hgiven |].
      destruct Hret as [Hg | [text Ht]]; [discriminate |].
      rewrite (Htext eq_refl), Ht. now eexists. }
    destruct Hr as [q ->].
    set (o1 := set_field "query" q o).
    set (o2 := set_field "include_docs"
                 (js_or (field_or_undefined "include_docs" o1) (VBool true)) o1).
    set (o3 := set_field "limit" (js_or (field_or_undefined "limit" o2) (VNum 200)) o2).
    exists (In.serialize_sort (VObj o) o3). split; [reflexivity |].
    assert (Ei : field_or_undefined "include_docs" o1
                 = field_or_undefined "include_docs" o)
      by (apply field_set_other; discriminate).
    assert (El : field_or_undefined "limit" o2 = field_or_undefined "limit" o).
    { unfold o2, o1. rewrite !field_set_other by discriminate. reflexivity. }
    assert (Es : get_field "sort" o3 = get_field "sort" o).
    { unfold o3, o2, o1. rewrite !get_field_set_other by discriminate. reflexivity. }
    assert (Es' : field_or_undefined "sort" o3 = field_or_undefined "sort" o)
      by (unfold field_or_undefined; now rewrite Es).
    assert (Gi : get_field "include_docs" o3
                 = Some (js_or (field_or_undefined "include_docs" o) (VBool true))).
    { unfold o3, o2. rewrite get_field_set_other by discriminate.
      now rewrite get_field_set_same, Ei. }
    assert (Gl : get_field "limit" o3
                 = Some (js_or (field_or_undefined "limit" o) (VNum 200))).
    { unfold o3. now rewrite get_field_set_same, El. }
    unfold In.serialize_sort. rewrite Es'.
    destruct (truthy (field_or_undefined "sort" o)).
    + rewrite !get_field_set_other by discriminate. rewrite get_field_set_same.
      now rewrite Gi, Gl.
    + now rewrite Gi, Gl, Es.
  - intros Hg x Hx.
    unfold bind at 2. unfold ret at 1. unfold bind at 2.
    rewrite Hq, (Htext Hg), Hx. reflexivity.
Qed.

Lemma search_option_defaults_witness :
  exists o',
    In.on_input (In.mkNode "orders" "_idx_" "app" "byName" (VStr EmptyString))
      [("payload", VObj [("q", VStr "x"); ("limit", VNum 5);
                         ("sort", VArr [VStr "-name"])])]
    = ([], Ok (In.mkNode "orders" "_idx_" "app" "byName" (VStr EmptyString),
               Some (In.ReqSearch "app" "byName" (VObj o'))))
    /\ get_field "include_docs" o' = Some (VBool true)
    /\ get_field "limit" o' = Some (VNum 5)
    /\ get_field "sort" o' = Some (VStr (JSON_stringify (VArr [VStr "-name"]))).
Proof.
  exact (proj1 (search_option_defaults
                  (In.mkNode "orders" "_idx_" "app" "byName" (VStr EmptyString))
                  [("payload", VObj [("q", VStr "x"); ("limit", VNum 5);
                                     ("sort", VArr [VStr "-name"])])]
                  [("q", VStr "x"); ("limit", VNum 5); ("sort", VArr [VStr "-name"])]
                  eq_refl eq_refl)
               (or_introl eq_refl)).
Defined.

(** ** The identifier of a lookup *)

(** C10: of a mapping payload with both [id] and [_id] the identifier is
    the value of [id] when that is truthy and the value of [_id] when it is
    not; with a falsy [id] and no [_id] it is [undefined], not the payload. *)
Theorem getDocumentId_prefers_id (o : obj) :
  (forall a b,
     get_field "id" o = Some a -> get_field "_id" o = Some b ->
     In.getDocumentId (VObj o) = ([], Ok (if truthy a then a else b)))
  /\ (forall a,
        get_field "id" o = Some a -> truthy a = false -> get_field "_id" o = None ->
        In.getDocumentId (VObj o) = ([], Ok VUndefined)).
Proof.
  unfold In.getDocumentId. simpl. unfold has_field, field_or_undefined. split.
  - intros a b Ha Hb. rewrite Ha, Hb. simpl. now destruct (truthy a).
  - intros a Ha Ht Hb. rewrite Ha, Hb. simpl. now rewrite Ht.
Qed.

Lemma getDocumentId_prefers_id_witness :
  In.getDocumentId (VObj [("id", VStr EmptyString); ("_id", VStr "doc1")])
  = ([], Ok (VStr "doc1"))
  /\ In.getDocumentId (VObj [("id", VNum 0)]) = ([], Ok VUndefined).
Proof.
  split.
  - exact (proj1 (getDocumentId_prefers_id
                    [("id", VStr EmptyString); ("_id", VStr "doc1")])
                 (VStr EmptyString) (VStr "doc1") eq_refl eq_refl).
  - exact (proj2 (getDocumentId_prefers_id [("id", VNum 0)])
                 (VNum 0) eq_refl eq_refl eq_refl).
Defined.

(* ================================================================= *)
(** * Further properties of the code *)

(** ** Every insert, whatever the backend answers *)

Lemma count_retry_cycles p db doc k :
  count p (retry_cycles db doc k)
  = k * ((if p (CallInsert db doc) then 1 else 0)
         + (if p (CallCreate db) then 1 else 0)).
Proof.
  unfold count. induction k as [| k IH]; [reflexivity |].
  cbn [retry_cycles filter].
  destruct (p (CallInsert db doc)), (p (CallCreate db)); cbn [List.length];
    rewrite IH; lia.
Qed.

Lemma insertDocument_rounds_aux {St} (be : Backend St) node doc n :
  forall st, exists k,
    k <= n
    /\ snd (fst (insertDocument be node doc n st))
       = retry_cycles (database node) doc k ++ [CallInsert (database node) doc]
    /\ (k < n ->
        match fst (snd (insertDocument be node doc n st)) with
        | Some e => status_code e <> 404%Z
        | None => True
        end).
Proof.
  induction n as [| n IH]; intros st.
  - exists 0. simpl.
    destruct (db_insert be st (database node) doc) as [st1 [[e |] body]]; simpl;
      repeat split; auto; lia.
  - simpl. destruct (db_insert be st (database node) doc) as [st1 [[e |] body]].
    + destruct (Z.eqb_spec (status_code e) 404) as [E | N].
      * destruct (db_create be st1 (database node)) as [st2 cerr].
        destruct (IH st2) as (k & Hk & Ht & Hr).
        destruct (insertDocument be node doc n st2) as [[st3 t] r].
        simpl in *. exists (S k). subst t. repeat split; [lia | ].
        intros Hlt. apply Hr. lia.
      * exists 0. simpl. repeat split; auto; lia.
    + exists 0. simpl. repeat split; auto; lia.
Qed.

(** X1: whatever the backend answers, [insertDocument] with budget [n]
    makes [k <= n] rounds of insert-then-create on the same database and
    document and one last insert; it stops before the budget is used up
    only on an answer that is not a 404 error. *)
Theorem insertDocument_rounds {St} (be : Backend St) (node : OutNode)
    (doc : value) (n : nat) (st : St) :
  exists k,
    k <= n
    /\ snd (fst (insertDocument be node doc n st))
       = retry_cycles (database node) doc k ++ [CallInsert (database node) doc]
    /\ (k < n ->
        match fst (snd (insertDocument be node doc n st)) with
        | Some e => status_code e <> 404%Z
        | None => True
        end).
Proof. apply insertDocument_rounds_aux. Qed.

Lemma handleMessage_shape {St} (rt : Runtime) (be : Backend St) node msg st :
  exists w t,
    trace (handleMessage rt be node msg st) = w ++ t
    /\ only_warnings w /\ out_tail node t.
Proof.
  unfold handleMessage.
  destruct (operation node =? "insert").
  - destruct (insert_input node msg) as [m root].
    pose proof (parseMessage_warnings rt m root) as Hw.
    destruct (parseMessage rt m root) as [w [doc | e]]; simpl in Hw; unfold after.
    + destruct (insertDocument_rounds_aux be node doc MAX_ATTEMPTS st)
        as (k & Hk & Ht & _).
      destruct (insertDocument be node doc MAX_ATTEMPTS st) as [[st' t] [err b]].
      simpl in Ht. subst t. cbn [trace done].
      exists w. eexists. split; [reflexivity |]. split; [exact Hw |].
      rewrite <- app_assoc. now constructor.
    + exists w, []. cbn [trace]. rewrite app_nil_r. repeat split; auto. constructor.
  - destruct (operation node =? "delete").
    + pose proof (parseMessage_warnings rt (delete_input msg) EmptyString) as Hw.
      destruct (parseMessage rt (delete_input msg) EmptyString) as [w [doc | e]];
        simpl in Hw.
      * exists w.
        destruct doc as [| | b | n | s | l | fields];
          try (exists []; cbn; rewrite ?app_nil_r; repeat split; auto; constructor).
        -- exists [NodeError precondition_message (LocalErr precondition_message)].
           cbn. rewrite !app_nil_r. repeat split; auto. constructor.
        -- unfold bind at 1. unfold in_op at 1, ret at 1, bind at 1.
           destruct (has_field "_rev" fields); cbn [andb].
           ++ unfold in_op, ret at 1, bind at 1.
              destruct (has_field "_id" fields); cbn.
              ** destruct (db_destroy be st (database node)
                             (field_or_undefined "_id" fields)
                             (field_or_undefined "_rev" fields)) as [st' err].
                 cbn. rewrite !app_nil_r.
                 exists (CallDestroy (database node) (field_or_undefined "_id" fields)
                           (field_or_undefined "_rev" fields) :: destroy_callback err).
                 repeat split; auto. constructor.
              ** rewrite !app_nil_r.
                 exists [NodeError precondition_message (LocalErr precondition_message)].
                 repeat split; auto. constructor.
           ++ cbn. rewrite !app_nil_r.
              exists [NodeError precondition_message (LocalErr precondition_message)].
              repeat split; auto. constructor.
      * exists w, []. cbn. rewrite app_nil_r. repeat split; auto. constructor.
    + exists [], []. repeat split; constructor.
Qed.

Lemma warnings_no_destroy e : is_warning e = true -> is_destroy e = false.
Proof. now destruct e. Qed.
Lemma warnings_no_send e : is_warning e = true -> is_send e = false.
Proof. now destruct e. Qed.

Ltac count_tail :=
  rewrite ?count_app, ?count_retry_cycles;
  repeat match goal with
         | err : option error |- _ => destruct err
         end;
  cbn; unfold MAX_ATTEMPTS in *; lia.

(** X2: one message of the out node costs at most four inserts, three
    creations of the database, one delete and one error report, whatever
    the message and the backend's answers; it never both inserts and
    deletes, and the node never sends a message on. *)
Theorem handleMessage_bounds {St} (rt : Runtime) (be : Backend St)
    (node : OutNode) (msg : obj) (st : St) :
  let t := trace (handleMessage rt be node msg st) in
  count is_insert t <= MAX_ATTEMPTS + 1
  /\ count is_create t <= MAX_ATTEMPTS
  /\ count is_create t <= count is_insert t
  /\ count is_destroy t <= 1
  /\ count is_insert t * count is_destroy t = 0
  /\ count is_error_report t <= 1
  /\ count is_send t = 0.
Proof.
  destruct (handleMessage_shape rt be node msg st) as (w & t & -> & Hw & Ht).
  cbv zeta. rewrite !count_app.
  rewrite (count_warnings _ _ warnings_no_insert Hw),
          (count_warnings _ _ warnings_no_create Hw),
          (count_warnings _ _ warnings_no_destroy Hw),
          (count_warnings _ _ warnings_no_error Hw),
          (count_warnings _ _ warnings_no_send Hw).
  destruct Ht as [| k doc err Hk | | id rev err]; repeat split; count_tail.
Qed.

Lemma addressed_to_app db t u :
  addressed_to db t -> addressed_to db u -> addressed_to db (t ++ u).
Proof. intros; now apply Forall_app. Qed.

Lemma addressed_to_warnings db w : only_warnings w -> addressed_to db w.
Proof.
  intros H. unfold addressed_to. eapply Forall_impl; [| exact H].
  intros e He Hc. rewrite (warnings_no_call e He) in Hc. discriminate.
Qed.

Lemma addressed_to_retry_cycles db doc k : addressed_to db (retry_cycles db doc k).
Proof. induction k; simpl; repeat constructor; auto. Qed.

(** X3: every backend call made for a message of the out node names the
    database of the node. *)
Theorem handleMessage_one_database {St} (rt : Runtime) (be : Backend St)
    (node : OutNode) (msg : obj) (st : St) :
  addressed_to (database node) (trace (handleMessage rt be node msg st)).
Proof.
  destruct (handleMessage_shape rt be node msg st) as (w & t & -> & Hw & Ht).
  apply addressed_to_app; [now apply addressed_to_warnings |].
  destruct Ht as [| k doc err Hk | | id rev err].
  - constructor.
  - apply addressed_to_app; [apply addressed_to_retry_cycles |].
    destruct err; repeat constructor; discriminate.
  - repeat constructor. discriminate.
  - destruct err; repeat constructor; discriminate.
Qed.

(** X4: when the first insert is refused for a missing database and the
    insert after the creation is accepted, the message costs two inserts
    and one creation, and no error is reported. *)
Theorem insert_after_creation {St} (rt : Runtime) (be : Backend St)
    (node : OutNode) (msg : obj) (w : list event) (doc : value)
    (st st1 st2 st3 : St) (e : error) (body1 body3 : value) (cerr : option error) :
  operation node = "insert" ->
  insert_parses rt node msg w doc ->
  db_insert be st (database node) doc = (st1, (Some e, body1)) ->
  status_code e = 404%Z ->
  db_create be st1 (database node) = (st2, cerr) ->
  db_insert be st2 (database node) doc = (st3, (None, body3)) ->
  handleMessage rt be node msg st
  = mkOutcome st3
      (w ++ [CallInsert (database node) doc; CallCreate (database node);
             CallInsert (database node) doc])
      None.
Proof.
  intros Hop Hp H1 He Hc H3. rewrite (handleMessage_insert rt be _ _ _ _ _ Hop Hp).
  unfold MAX_ATTEMPTS. cbn [insertDocument]. rewrite H1, He. cbn.
  rewrite Hc. cbn [insertDocument]. now rewrite H3.
Qed.

Lemma insert_after_creation_witness :
  handleMessage example_runtime lazy_backend (mkOutNode "insert" true "orders")
    [("payload", VObj [("name", VStr "x")])] false
  = mkOutcome true
      [CallInsert "orders" (VObj [("name", VStr "x")]); CallCreate "orders";
       CallInsert "orders" (VObj [("name", VStr "x")])]
      None.
Proof.
  exact (insert_after_creation example_runtime lazy_backend
           (mkOutNode "insert" true "orders")
           [("payload", VObj [("name", VStr "x")])] [] (VObj [("name", VStr "x")])
           false false true true (mkError 404 "no_db_file") VUndefined
           (VObj [("ok", VBool true)]) None
           eq_refl eq_refl eq_refl eq_refl eq_refl eq_refl).
Defined.

(** ** Results of the read node *)

Lemma row_document_regular el d s :
  row_doc el = Some (d, s) ->
  In.row_document el
  = ([], Ok (if contains "_design/" s then VUndefined else d)).
Proof.
  unfold row_doc. destruct el as [| | | | | | r]; try discriminate.
  destruct (get_field "doc" r) as [[| | | | | | fields] |] eqn:Hd; try discriminate.
  destruct (get_field "_id" fields) as [[| | | | i | |] |] eqn:Hi; try discriminate.
  intros [= <- <-]. unfold In.row_document. cbn. unfold field_or_undefined.
  rewrite Hd. cbn. unfold field_or_undefined. rewrite Hi. cbn.
  now destruct (contains "_design/" i).
Qed.

Lemma row_doc_not_nullish el d s : row_doc el = Some (d, s) -> In.not_nullish d = true.
Proof.
  unfold row_doc. destruct el as [| | | | | | r]; try discriminate.
  destruct (get_field "doc" r) as [[| | | | | | fields] |]; try discriminate.
  destruct (get_field "_id" fields) as [[| | | | i | |] |]; try discriminate.
  now intros [= <- <-].
Qed.

Lemma map_rows_regular rows :
  Forall (fun el => row_doc el <> None) rows ->
  exists docs,
    In.map_rows rows = ([], Ok docs)
    /\ filter In.not_nullish docs = regular_docs rows.
Proof.
  induction 1 as [| el rows Hel _ (docs & E & F)]; [now exists [] |].
  destruct (row_doc el) as [[d s] |] eqn:Hr; [| now elim Hel].
  cbn [In.map_rows regular_docs].
  rewrite (row_document_regular el d s Hr), E, Hr. cbn.
  eexists. split; [reflexivity |].
  destruct (contains "_design/" s); cbn.
  - exact F.
  - now rewrite (row_doc_not_nullish el d s Hr), F.
Qed.

(** X5: of a listing whose rows all carry a document with a string [_id],
    the payload sent is the documents, in their order, whose [_id] does
    not contain ["_design/"] at any position; the listing itself goes out
    under [cloudant], and nothing is reported. *)
Theorem listing_drops_design_documents (node : In.Node) (body : obj)
    (rows : list value) (msg : obj) :
  get_field "rows" body = Some (VArr rows) ->
  Forall (fun el => row_doc el <> None) rows ->
  In.sendDocumentOnPayload node None (VObj body) msg
  = ([NodeSend (set_field "payload" (VArr (regular_docs rows))
                  (set_field "cloudant" (VObj body) msg))],
     Ok tt).
Proof.
  intros Hrows Hwf. destruct (map_rows_regular rows Hwf) as (docs & E & F).
  unfold In.sendDocumentOnPayload. cbn. unfold has_field, field_or_undefined.
  rewrite Hrows. cbn. rewrite E. cbn. now rewrite F.
Qed.

Lemma listing_drops_design_documents_witness :
  In.sendDocumentOnPayload
    (In.mkNode "orders" "_all_" EmptyString EmptyString (VStr EmptyString)) None
    (VObj [("total_rows", VNum 3);
           ("rows", VArr [VObj [("doc", VObj [("_id", VStr "a")])];
                          VObj [("doc", VObj [("_id", VStr "_design/app")])];
                          VObj [("doc", VObj [("_id", VStr "b")])]])])
    [("payload", VStr "go")]
  = ([NodeSend
        [("payload", VArr [VObj [("_id", VStr "a")]; VObj [("_id", VStr "b")]]);
         ("cloudant",
          VObj [("total_rows", VNum 3);
                ("rows", VArr [VObj [("doc", VObj [("_id", VStr "a")])];
                               VObj [("doc", VObj [("_id", VStr "_design/app")])];
                               VObj [("doc", VObj [("_id", VStr "b")])]])])]],
     Ok tt).
Proof.
  refine (listing_drops_design_documents
            (In.mkNode "orders" "_all_" EmptyString EmptyString (VStr EmptyString))
            [("total_rows", VNum 3);
             ("rows", VArr [VObj [("doc", VObj [("_id", VStr "a")])];
                            VObj [("doc", VObj [("_id", VStr "_design/app")])];
                            VObj [("doc", VObj [("_id", VStr "b")])]])]
            [VObj [("doc", VObj [("_id", VStr "a")])];
             VObj [("doc", VObj [("_id", VStr "_design/app")])];
             VObj [("doc", VObj [("_id", VStr "b")])]]
            [("payload", VStr "go")] eq_refl _).
  repeat constructor; discriminate.
Defined.

Lemma row_document_cases el :
  (exists d, In.row_document el = ([], Ok d))
  \/ In.row_document el = ([], Throw TypeError).
Proof.
  unfold In.row_document.
  destruct el as [| | b | n | s | l | r]; cbn; auto.
  destruct (field_or_undefined "doc" r) as [| | b | n | s | l | d]; cbn; auto.
  destruct (field_or_undefined "_id" d) as [| | b | n | s | l | x]; cbn; auto.
  - left. eexists. reflexivity.
  - left. eexists. reflexivity.
Qed.

Lemma row_document_without_doc el :
  row_without_doc el = true -> In.row_document el = ([], Throw TypeError).
Proof.
  unfold In.row_document, row_without_doc.
  destruct el as [| | b | n | s | l | r]; cbn; auto.
  unfold field_or_undefined.
  destruct (get_field "doc" r) as [[| | b | n | s | l | d] |]; cbn; auto;
    discriminate.
Qed.

Lemma map_rows_without_doc rows :
  existsb row_without_doc rows = true -> In.map_rows rows = ([], Throw TypeError).
Proof.
  induction rows as [| el rows IH]; [discriminate |]. cbn [existsb In.map_rows].
  intros H. apply orb_true_iff in H as [H | H].
  - now rewrite (row_document_without_doc el H).
  - destruct (row_document_cases el) as [[d ->] | ->]; [| reflexivity].
    cbn. now rewrite (IH H).
Qed.

(** X6: when one row of a listing has no document, the callback throws a
    TypeError before anything is sent or reported. *)
Theorem listing_row_without_document (node : In.Node) (body : obj)
    (rows : list value) (msg : obj) :
  get_field "rows" body = Some (VArr rows) ->
  existsb row_without_doc rows = true ->
  In.sendDocumentOnPayload node None (VObj body) msg = ([], Throw TypeError).
Proof.
  intros Hrows Hbad. unfold In.sendDocumentOnPayload. cbn.
  unfold has_field, field_or_undefined. rewrite Hrows. cbn.
  now rewrite (map_rows_without_doc rows Hbad).
Qed.

Lemma listing_row_without_document_witness :
  In.sendDocumentOnPayload
    (In.mkNode "orders" "_idx_" "app" "byName" (VStr EmptyString)) None
    (VObj [("rows", VArr [VObj [("doc", VObj [("_id", VStr "a")])];
                          VObj [("id", VStr "b")]])])
    [("payload", VStr "go")]
  = ([], Throw TypeError).
Proof.
  exact (listing_row_without_document
           (In.mkNode "orders" "_idx_" "app" "byName" (VStr EmptyString))
           [("rows", VArr [VObj [("doc", VObj [("_id", VStr "a")])];
                           VObj [("id", VStr "b")]])]
           [VObj [("doc", VObj [("_id", VStr "a")])]; VObj [("id", VStr "b")]]
           [("payload", VStr "go")] eq_refl eq_refl).
Defined.

(** ** One message of the read node *)

Lemma formatSearchQuery_silent q : fst (In.formatSearchQuery q) = [].
Proof.
  unfold In.formatSearchQuery. destruct q as [| | b | n | s | l | o]; try reflexivity.
  - cbn [typeof_object in_op]. unfold ret at 1. rewrite bind_ret_l, bind_lift.
    now destruct (In.query_text (In.enumerable_fields (VArr l)) EmptyString).
  - cbn [typeof_object in_op]. unfold ret at 1. rewrite bind_ret_l.
    destruct (has_field "q" o); [reflexivity |]. rewrite bind_lift.
    now destruct (In.query_text (In.enumerable_fields (VObj o)) EmptyString).
Qed.

Lemma options_of_silent payload : fst (In.options_of payload) = [].
Proof. now destruct payload. Qed.

Lemma search_options_silent payload : fst (In.search_options payload) = [].
Proof.
  unfold In.search_options. rewrite bind_trace, options_of_silent.
  destruct (snd (In.options_of payload)) as [options | e]; [| reflexivity].
  rewrite bind_trace. cbv zeta.
  destruct (truthy (field_or_undefined "query" options)); [reflexivity |].
  destruct (truthy (field_or_undefined "q" options)); [reflexivity |].
  rewrite formatSearchQuery_silent.
  now destruct (snd (In.formatSearchQuery payload)).
Qed.

Lemma list_options_silent payload : fst (In.list_options payload) = [].
Proof.
  unfold In.list_options. rewrite bind_trace, options_of_silent.
  now destruct (snd (In.options_of payload)).
Qed.

Lemma on_input_silent node msg : fst (In.on_input node msg) = [].
Proof.
  unfold In.on_input.
  destruct (In.search node =? "_id_").
  { rewrite bind_trace, getDocumentId_silent.
    now destruct (snd (In.getDocumentId (field_or_undefined "payload" msg))). }
  destruct (In.search node =? "_idx_").
  { rewrite bind_trace, search_options_silent.
    now destruct (snd (In.search_options (field_or_undefined "payload" msg))). }
  destruct (In.search node =? "_all_"); [| reflexivity].
  rewrite bind_trace, list_options_silent.
  now destruct (snd (In.list_options (field_or_undefined "payload" msg))).
Qed.

Lemma on_input_database node msg t node' r :
  In.on_input node msg = (t, Ok (node', r)) -> In.database node' = In.database node.
Proof.
  unfold In.on_input.
  destruct (In.search node =? "_id_").
  { intros H. apply bind_ok in H as (t1 & id & t2 & _ & E & _).
    now injection E as _ <- _. }
  destruct (In.search node =? "_idx_").
  { intros H. apply bind_ok in H as (t1 & o & t2 & _ & E & _).
    now injection E as _ <- _. }
  destruct (In.search node =? "_all_").
  { intros H. apply bind_ok in H as (t1 & o & t2 & _ & E & _).
    now injection E as _ <- _. }
  now intros [= _ <- _].
Qed.

Lemma map_rows_silent rows : fst (In.map_rows rows) = [].
Proof.
  induction rows as [| el rows IH]; [reflexivity |]. cbn [In.map_rows].
  rewrite bind_trace.
  destruct (row_document_cases el) as [[d ->] | ->]; [| reflexivity].
  cbn [fst snd app]. rewrite bind_trace, IH.
  now destruct (snd (In.map_rows rows)).
Qed.

Lemma sendDocumentOnPayload_trace node err body msg :
  let t := fst (In.sendDocumentOnPayload node err body msg) in
  t = []
  \/ (exists m, t = [NodeSend m])
  \/ (exists text e m, t = [NodeWarn text (Some e); NodeSend m])
  \/ (exists e m, t = [NodeError (description e) (BackendErr e); NodeSend m]).
Proof.
  destruct err as [e |].
  - destruct (String.eqb_spec (description e) "missing") as [E | N].
    + rewrite (sendDocumentOnPayload_missing _ _ _ _ E).
      destruct (ToString (In.inputId node)); cbn.
      * right; right; left. now eexists _, _, _.
      * now left.
    + rewrite (sendDocumentOnPayload_other _ _ _ _ N). cbn.
      right; right; right. now eexists _, _.
  - unfold In.sendDocumentOnPayload. cbv zeta. rewrite bind_trace.
    match goal with |- context [snd ?m] => set (body_part := m) end.
    assert (Hs : fst body_part = []).
    { unfold body_part. rewrite bind_trace.
      destruct body as [| | b | n | s | l | o]; try reflexivity. cbn.
      destruct (has_field "rows" o); [| reflexivity]. cbn.
      destruct (field_or_undefined "rows" o) as [| | b | n | s | l | x];
        try reflexivity.
      pose proof (map_rows_silent l) as Hm.
      destruct (In.map_rows l) as [tm [docs | x]]; cbn in *; now subst tm. }
    rewrite Hs. destruct (snd body_part) as [m | x]; cbn.
    + right; left. now eexists.
    + now left.
Qed.

(** X7: one message of the read node makes at most one backend call,
    addressed to the database of the node, reports at most once and sends
    at most one message, whatever the message and the backend's answer. *)
Theorem process_single_call {St} (be : Backend St) (node : In.Node)
    (msg : obj) (st : St) :
  let t := trace (snd (In.process be node msg st)) in
  count is_backend_call t <= 1
  /\ count is_warning t + count is_error_report t <= 1
  /\ count is_send t <= 1
  /\ addressed_to (In.database node) t.
Proof.
  unfold In.process.
  pose proof (on_input_silent node msg) as Hs.
  pose proof (on_input_database node msg) as Hd.
  destruct (In.on_input node msg) as [t [[node' [r |]] | e]]; cbn in Hs; subst t.
  - specialize (Hd [] node' (Some r) eq_refl).
    destruct (In.perform be node' r st) as [st' [err body]].
    pose proof (sendDocumentOnPayload_trace node' err body msg) as Ht.
    destruct (In.sendDocumentOnPayload node' err body msg) as [t' res].
    cbn in Ht. cbn [snd trace app].
    assert (Hcall : is_backend_call (In.call_event node' r) = true
                    /\ is_warning (In.call_event node' r) = false
                    /\ is_error_report (In.call_event node' r) = false
                    /\ is_send (In.call_event node' r) = false
                    /\ event_db (In.call_event node' r) = Some (In.database node)).
    { rewrite <- Hd. now destruct r. }
    destruct Hcall as (C1 & C2 & C3 & C4 & C5).
    unfold count, addressed_to. cbn [filter]. rewrite C1, C2, C3, C4.
    destruct Ht as [-> | [(m & ->) | [(text & e & m & ->) | (e & m & ->)]]]; cbn.
    + repeat split; try lia. repeat constructor. now intros _.
    + repeat split; try lia. repeat constructor; [now intros _ | discriminate].
    + (repeat split; try lia);
        repeat constructor; try (now intros _); discriminate.
    + (repeat split; try lia);
        repeat constructor; try (now intros _); discriminate.
  - cbn. repeat split; try lia. constructor.
  - cbn. repeat split; try lia. constructor.
Qed.

(** X8: a message whose payload is [null] stops in the handler with a
    TypeError in each of the three modes: the backend is not called and
    nothing is sent. *)
Theorem null_payload_stops {St} (be : Backend St) (node : In.Node)
    (msg : obj) (st : St) :
  field_or_undefined "payload" msg = VNull ->
  In (In.search node) ["_id_"; "_idx_"; "_all_"] ->
  In.process be node msg st = (node, mkOutcome st [] (Some TypeError)).
Proof.
  intros Hp Hs. unfold In.process, In.on_input. rewrite Hp.
  destruct Hs as [<- | [<- | [<- | []]]]; reflexivity.
Qed.

Lemma null_payload_stops_witness :
  In.process (fixed_backend None VUndefined)
    (In.mkNode "orders" "_all_" EmptyString EmptyString (VStr EmptyString))
    [("payload", VNull)] tt
  = (In.mkNode "orders" "_all_" EmptyString EmptyString (VStr EmptyString),
     mkOutcome tt [] (Some TypeError)).
Proof.
  refine (null_payload_stops (fixed_backend None VUndefined)
            (In.mkNode "orders" "_all_" EmptyString EmptyString (VStr EmptyString))
            [("payload", VNull)] tt eq_refl _).
  right; right; left. reflexivity.
Defined.

(** X9: the identifier of a lookup is the payload itself when the payload
    is not [null] and is not a mapping with an [id] or [_id] field: a
    string, a number, an array, or a mapping without these fields. *)
Theorem getDocumentId_passthrough (payload : value) :
  payload <> VNull ->
  own_field "_id" payload = None ->
  own_field "id" payload = None ->
  In.getDocumentId payload = ([], Ok payload).
Proof.
  intros Hn H_id Hid. unfold In.getDocumentId.
  destruct payload as [| | b | n | s | l | o]; try reflexivity; [now elim Hn |].
  cbn in *. unfold has_field. now rewrite H_id, Hid.
Qed.

Lemma getDocumentId_passthrough_witness :
  In.getDocumentId (VStr "doc1") = ([], Ok (VStr "doc1"))
  /\ In.getDocumentId (VObj [("name", VStr "x")])
     = ([], Ok (VObj [("name", VStr "x")])).
Proof.
  split.
  - refine (getDocumentId_passthrough (VStr "doc1") _ eq_refl eq_refl). discriminate.
  - refine (getDocumentId_passthrough (VObj [("name", VStr "x")]) _ eq_refl eq_refl).
    discriminate.
Defined.

(** X10: in the by-id mode, a document fetched without error and without
    a field named [rows] is sent on as the payload and under [cloudant],
    after the one call of the backend. *)
Theorem by_id_success {St} (be : Backend St) (node : In.Node) (msg : obj)
    (st st' : St) (id : value) (doc : obj) :
  In.search node = "_id_" ->
  snd (In.getDocumentId (field_or_undefined "payload" msg)) = Ok id ->
  db_get be st (In.database node) id = (st', (None, VObj doc)) ->
  has_field "rows" doc = false ->
  In.process be node msg st
  = (In.set_inputId node id,
     mkOutcome st'
       [CallGet (In.database node) id;
        NodeSend (set_field "payload" (VObj doc)
                    (set_field "cloudant" (VObj doc) msg))]
       None).
Proof.
  intros Hs Hid Hget Hrows. unfold In.process.
  rewrite (on_input_by_id node msg id Hs Hid). cbn [In.perform In.set_inputId In.database].
  rewrite Hget. unfold In.sendDocumentOnPayload. cbn. now rewrite Hrows.
Qed.

Lemma by_id_success_witness :
  In.process (fixed_backend None (VObj [("_id", VStr "doc1"); ("n", VNum 1)]))
    (In.mkNode "orders" "_id_" EmptyString EmptyString (VStr EmptyString))
    [("payload", VObj [("id", VStr "doc1")])] tt
  = (In.mkNode "orders" "_id_" EmptyString EmptyString (VStr "doc1"),
     mkOutcome tt
       [CallGet "orders" (VStr "doc1");
        NodeSend [("payload", VObj [("_id", VStr "doc1"); ("n", VNum 1)]);
                  ("cloudant", VObj [("_id", VStr "doc1"); ("n", VNum 1)])]]
       None).
Proof.
  exact (by_id_success (fixed_backend None (VObj [("_id", VStr "doc1"); ("n", VNum 1)]))
           (In.mkNode "orders" "_id_" EmptyString EmptyString (VStr EmptyString))
           [("payload", VObj [("id", VStr "doc1")])] tt tt (VStr "doc1")
           [("_id", VStr "doc1"); ("n", VNum 1)] eq_refl eq_refl eq_refl eq_refl).
Defined.

(** ** Options sent with a search or a listing *)

Lemma truthy_js_or a b : truthy b = true -> truthy (js_or a b) = true.
Proof. intros H. unfold js_or. now destruct (truthy a) eqn:E. Qed.

Lemma serialize_sort_other payload o k :
  k <> "sort" -> get_field k (In.serialize_sort payload o) = get_field k o.
Proof.
  intros N. unfold In.serialize_sort.
  destruct payload; destruct (get_field "sort" o);
    try destruct (truthy (field_or_undefined "sort" o));
    try reflexivity; now rewrite get_field_set_other.
Qed.

(** X11: whatever the payload, the options of an indexed search that
    reaches the backend carry a [query] field and truthy [include_docs] and
    [limit], and the options of a listing carry a truthy [include_docs]. *)
Theorem options_never_falsy (payload : value) (t : list event) (o' : obj) :
  (In.search_options payload = (t, Ok o') ->
     has_field "query" o' = true
     /\ truthy (field_or_undefined "include_docs" o') = true
     /\ truthy (field_or_undefined "limit" o') = true)
  /\ (In.list_options payload = (t, Ok o') ->
        truthy (field_or_undefined "include_docs" o') = true).
Proof.
  split.
  - unfold In.search_options. intros H.
    apply bind_ok in H as (t1 & options & t2 & _ & H & _).
    apply bind_ok in H as (t3 & query & t4 & _ & H & _).
    unfold ret in H. injection H as _ <-.
    unfold has_field, field_or_undefined.
    rewrite !serialize_sort_other by discriminate.
    rewrite get_field_set_same.
    rewrite (get_field_set_other "limit" "include_docs") by discriminate.
    rewrite get_field_set_same.
    rewrite !(get_field_set_other _ "query") by discriminate.
    rewrite get_field_set_same.
    repeat split; now apply truthy_js_or.
  - unfold In.list_options. intros H.
    apply bind_ok in H as (t1 & options & t2 & _ & H & _).
    unfold ret in H. injection H as _ <-.
    unfold field_or_undefined. rewrite get_field_set_same.
    now apply truthy_js_or.
Qed.

Lemma options_never_falsy_witness :
  has_field "query"
    [("q", VStr "x"); ("include_docs", VBool true); ("limit", VNum 200);
     ("query", VStr "x")] = true
  /\ truthy (field_or_undefined "include_docs"
               [("q", VStr "x"); ("include_docs", VBool true); ("limit", VNum 200);
                ("query", VStr "x")]) = true.
Proof.
  destruct (proj1 (options_never_falsy
                     (VObj [("q", VStr "x"); ("include_docs", VBool false);
                            ("limit", VNum 0)])
                     []
                     [("q", VStr "x"); ("include_docs", VBool true);
                      ("limit", VNum 200); ("query", VStr "x")])
                  eq_refl) as (Hq & Hi & _).
  exact (conj Hq Hi).
Defined.

(** ** Startup *)

Lemma indexOf_found_In key l : indexOf_found key l = true <-> In key l.
Proof.
  unfold indexOf_found. rewrite existsb_exists. split.
  - intros (w & Hin & E). apply String.eqb_eq in E. now subst.
  - intros H. exists key. split; [exact H | apply String.eqb_refl].
Qed.

(** X12: at startup the database is created exactly when the listing
    succeeded and does not name it; a listing that names it, or fails
    with status 403, is followed by no call and no report. *)
Theorem createDatabase_when_absent {St} (be : Backend St)
    (list_databases : St -> St * (option error * option (list string)))
    (node : OutNode) (st st1 : St) (err : option error)
    (all_dbs : option (list string)) :
  list_databases st = (st1, (err, all_dbs)) ->
  let r := createDatabase be list_databases node st in
  (existsb is_startup_create (snd r) = true
   <-> err = None /\ exists names, all_dbs = Some names /\ ~ In (database node) names)
  /\ (forall names,
        err = None -> all_dbs = Some names -> In (database node) names ->
        r = (st1, [CallListDatabases]))
  /\ (forall e,
        err = Some e -> status_code e = 403%Z -> r = (st1, [CallListDatabases])).
Proof.
  intros Hl r. subst r. unfold createDatabase. rewrite Hl.
  split; [| split].
  - destruct err as [e |].
    + destruct (status_code e =? 403)%Z; cbn; split; try discriminate;
        now intros [? _].
    + destruct all_dbs as [names |].
      * destruct (indexOf_found (database node) names) eqn:F; cbn.
        -- split; [discriminate |]. intros (_ & names' & [= <-] & N).
           elim N. now apply indexOf_found_In.
        -- destruct (db_create be st1 (database node)) as [st2 cerr]. cbn.
           split; [| reflexivity]. intros _. split; [reflexivity |].
           exists names. split; [reflexivity |]. intros Hin.
           apply indexOf_found_In in Hin. congruence.
      * cbn. split; [discriminate |]. now intros (_ & names & ? & _).
  - intros names -> -> Hin. apply indexOf_found_In in Hin. now rewrite Hin.
  - intros e -> He. now rewrite He.
Qed.

Lemma createDatabase_when_absent_witness :
  createDatabase lazy_backend (fun st => (st, (None, Some ["orders"; "users"])))
    (mkOutNode "insert" true "orders") true
  = (true, [CallListDatabases]).
Proof.
  refine (proj1 (proj2 (createDatabase_when_absent lazy_backend
                          (fun st => (st, (None, Some ["orders"; "users"])))
                          (mkOutNode "insert" true "orders") true true None
                          (Some ["orders"; "users"]) eq_refl))
                ["orders"; "users"] eq_refl eq_refl _).
  left. reflexivity.
Defined.

(** ** The account of a connection profile *)

Lemma index_of_split c s i :
  index_of c s = Some i ->
  i < String.length s
  /\ all_chars (fun d => negb (Ascii.eqb d c)) (substring 0 i s) = true
  /\ exists rest, s = (substring 0 i s ++ String c rest)%string.
Proof.
  revert i. induction s as [| d r IH]; intros i; cbn; [discriminate |].
  destruct (Ascii.eqb_spec d c) as [-> | N].
  - intros [= <-]. cbn. repeat split; [lia |]. now exists r.
  - destruct (index_of c r) as [j |]; [| discriminate]. intros [= <-].
    destruct (IH j eq_refl) as (Hlt & Hall & rest & E). cbn.
    apply Ascii.eqb_neq in N. rewrite N. cbn. repeat split; [lia | exact Hall |].
    exists rest. now rewrite <- E.
Qed.

Lemma substring_0_0 s : substring 0 0 s = EmptyString.
Proof. now destruct s. Qed.

Lemma account_of_eq host :
  account_of host
  = match index_of "." host with
    | Some i => substring 0 i host
    | None => EmptyString
    end.
Proof.
  unfold account_of, substring_at, indexOf_char, clamp.
  destruct (index_of "." host) as [i |] eqn:E.
  - destruct (index_of_split _ _ _ E) as (Hlt & _).
    replace (Z.min (Z.min (Z.max 0 0) (Z.of_nat (String.length host)))
               (Z.min (Z.max (Z.of_nat i) 0) (Z.of_nat (String.length host))))
      with 0%Z by lia.
    replace (Z.max (Z.min (Z.max 0 0) (Z.of_nat (String.length host)))
               (Z.min (Z.max (Z.of_nat i) 0) (Z.of_nat (String.length host))) - 0)%Z
      with (Z.of_nat i) by lia.
    now rewrite Nat2Z.id.
  - replace (Z.min (Z.min (Z.max 0 0) (Z.of_nat (String.length host)))
               (Z.min (Z.max (-1) 0) (Z.of_nat (String.length host))))
      with 0%Z by lia.
    replace (Z.max (Z.min (Z.max 0 0) (Z.of_nat (String.length host)))
               (Z.min (Z.max (-1) 0) (Z.of_nat (String.length host))) - 0)%Z
      with 0%Z by lia.
    apply substring_0_0.
Qed.

(** X13: the account taken from a host name contains no dot; it is the
    part of the host before its first dot, and it is empty when the host
    has no dot at all. *)
Theorem account_before_first_dot (h : string) :
  all_chars no_dot (account_of h) = true
  /\ (all_chars no_dot h = false ->
      exists rest, h = (account_of h ++ String "." rest)%string)
  /\ (all_chars no_dot h = true -> account_of h = EmptyString).
Proof.
  rewrite account_of_eq.
  assert (Hnone : index_of "." h = None <-> all_chars no_dot h = true).
  { induction h as [| d r IH]; cbn; [tauto |]. unfold no_dot at 1.
    destruct (Ascii.eqb d "."); cbn; [split; discriminate |].
    rewrite <- IH. destruct (index_of "." r); cbn; split; congruence. }
  destruct (index_of "." h) as [i |] eqn:E.
  - destruct (index_of_split _ _ _ E) as (_ & Hall & rest & Hsplit).
    split; [exact Hall |]. split.
    + intros _. now exists rest.
    + intros H. apply Hnone in H. discriminate.
  - split; [reflexivity |]. split; [| reflexivity].
    intros H. rewrite (proj1 Hnone eq_refl) in H. discriminate.
Qed.

Lemma account_before_first_dot_witness :
  exists rest,
    "acme.cloudant.com" = (account_of "acme.cloudant.com" ++ String "." rest)%string.
Proof.
  exact (proj1 (proj2 (account_before_first_dot "acme.cloudant.com")) eq_refl).
Defined.

(** ** Stored credentials *)

Lemma set_field_same k v o : get_field k o = Some v -> set_field k v o = o.
Proof.
  induction o as [| [k0 v0] r IH]; cbn; [discriminate |].
  destruct (String.eqb_spec k0 k) as [-> | N].
  - now intros [= ->].
  - intros H. now rewrite (IH H).
Qed.

Lemma delete_field_absent k o : get_field k o = None -> delete_field k o = o.
Proof.
  unfold delete_field. induction o as [| [k0 v0] r IH]; cbn; [reflexivity |].
  destruct (String.eqb_spec k0 k) as [-> | N]; [discriminate |].
  intros H. cbn. now rewrite (IH H).
Qed.

Lemma get_field_delete_same k o : get_field k (delete_field k o) = None.
Proof.
  unfold delete_field. induction o as [| [k0 v0] r IH]; cbn; [reflexivity |].
  destruct (String.eqb_spec k0 k) as [-> | N]; cbn; [exact IH |].
  apply String.eqb_neq in N. now rewrite N.
Qed.

Lemma get_field_delete_other k k' o :
  k' <> k -> get_field k' (delete_field k o) = get_field k' o.
Proof.
  intros N. unfold delete_field.
  induction o as [| [k0 v0] r IH]; cbn; [reflexivity |].
  destruct (String.eqb_spec k0 k) as [-> | N0]; cbn.
  - apply not_eq_sym, String.eqb_neq in N. now rewrite N.
  - now rewrite IH.
Qed.

Lemma js_or_twice a b : js_or a (js_or a b) = js_or a b.
Proof. unfold js_or. now destruct (truthy a). Qed.

Lemma post_credentials_steps stored n :
  post_credentials stored n
  = post_password n (post_username n (match stored with Some c => c | None => [] end)).
Proof. reflexivity. Qed.

Lemma post_username_fixed n c :
  post_username n (post_password n (post_username n c))
  = post_password n (post_username n c).
Proof.
  unfold post_username.
  destruct (is_null (field_or_undefined "username" n)
            || is_empty_string (field_or_undefined "username" n)).
  - apply delete_field_absent. unfold post_password.
    destruct (is_empty_string (field_or_undefined "password" n)).
    + rewrite get_field_delete_other by discriminate. apply get_field_delete_same.
    + rewrite get_field_set_other by discriminate. apply get_field_delete_same.
  - apply set_field_same. unfold post_password.
    destruct (is_empty_string (field_or_undefined "password" n)).
    + rewrite get_field_delete_other by discriminate. apply get_field_set_same.
    + rewrite get_field_set_other by discriminate. apply get_field_set_same.
Qed.

Lemma post_password_fixed n c :
  post_password n (post_password n c) = post_password n c.
Proof.
  unfold post_password.
  destruct (is_empty_string (field_or_undefined "password" n)).
  - apply delete_field_absent, get_field_delete_same.
  - apply set_field_same. rewrite get_field_set_same. f_equal.
    unfold field_or_undefined at 4. rewrite get_field_set_same.
    symmetry. apply js_or_twice.
Qed.

(** X14: posting the same credentials again changes nothing: what the
    handler stores for a body, given what it stored for that body before,
    is the same object. *)
Theorem post_credentials_idempotent (stored : option obj) (newCreds : obj) :
  post_credentials (Some (post_credentials stored newCreds)) newCreds
  = post_credentials stored newCreds.
Proof.
  rewrite !post_credentials_steps. rewrite post_username_fixed.
  apply post_password_fixed.
Qed.

Lemma truthy_not_empty v : truthy v = true -> is_empty_string v = false.
Proof.
  destruct v as [| | b | n | s | l | o]; try reflexivity. cbn.
  now intros ->%negb_true_iff.
Qed.

Lemma post_password_field n c :
  get_field "password" (post_password n c)
  = if is_empty_string (field_or_undefined "password" n) then None
    else Some (js_or (field_or_undefined "password" n)
                     (field_or_undefined "password" c)).
Proof.
  unfold post_password.
  destruct (is_empty_string (field_or_undefined "password" n)).
  - apply get_field_delete_same.
  - apply get_field_set_same.
Qed.

(** X15: after a POST, the GET of the same credentials answers
    [hasPassword: true] when the body had a truthy password, without the
    password itself; it answers without [hasPassword] when the body had
    the empty password; and a body without a password leaves the stored
    password as it was. *)
Theorem post_then_get (stored : option obj) (newCreds : obj) :
  let credentials := post_credentials stored newCreds in
  (truthy (field_or_undefined "password" newCreds) = true ->
     get_credentials_response (Some credentials)
     = JSON_stringify (VObj [("username", field_or_undefined "username" credentials);
                             ("hasPassword", VBool true)]))
  /\ (field_or_undefined "password" newCreds = VStr EmptyString ->
        get_credentials_response (Some credentials)
        = JSON_stringify
            (VObj [("username", field_or_undefined "username" credentials)]))
  /\ (field_or_undefined "password" newCreds = VUndefined ->
        field_or_undefined "password" credentials
        = field_or_undefined "password"
            (match stored with Some c => c | None => [] end)).
Proof.
  cbv zeta. rewrite post_credentials_steps.
  set (c := post_username newCreds (match stored with Some c => c | None => [] end)).
  assert (Hc : field_or_undefined "password" c
               = field_or_undefined "password"
                   (match stored with Some c => c | None => [] end)).
  { unfold c, post_username, field_or_undefined.
    destruct (is_null _ || is_empty_string _).
    - now rewrite get_field_delete_other by discriminate.
    - now rewrite get_field_set_other by discriminate. }
  assert (HP : field_or_undefined "password" (post_password newCreds c)
               = if is_empty_string (field_or_undefined "password" newCreds)
                 then VUndefined
                 else js_or (field_or_undefined "password" newCreds)
                            (field_or_undefined "password" c)).
  { unfold field_or_undefined at 1. rewrite post_password_field.
    now destruct (is_empty_string (field_or_undefined "password" newCreds)). }
  unfold get_credentials_response. cbv zeta. rewrite !HP.
  split; [| split].
  - intros Ht. rewrite (truthy_not_empty _ Ht).
    unfold js_or. rewrite Ht. unfold js_and. rewrite Ht.
    now rewrite (truthy_not_empty _ Ht).
  - intros E. rewrite E. cbn [is_empty_string String.eqb js_and truthy].
    cbn. now destruct (field_or_undefined "username" (post_password newCreds c)).
  - intros E. rewrite E. cbn [is_empty_string]. unfold js_or. cbn [truthy].
    exact Hc.
Qed.

Lemma post_then_get_witness :
  get_credentials_response
    (Some (post_credentials (Some [("username", VStr "old"); ("password", VStr "p0")])
                            [("username", VStr "bob"); ("password", VStr "secret")]))
  = JSON_stringify (VObj [("username", VStr "bob"); ("hasPassword", VBool true)]).
Proof.
  exact (proj1 (post_then_get (Some [("username", VStr "old"); ("password", VStr "p0")])
                  [("username", VStr "bob"); ("password", VStr "secret")])
               eq_refl).
Defined.

(** ** Fixed points of the name normalizer *)

Lemma toLowerCase_length s : String.length (toLowerCase s) = String.length s.
Proof. induction s as [| c r IH]; cbn; [reflexivity | now rewrite IH]. Qed.

Lemma collapse_length b s : String.length (collapse b s) <= String.length s.
Proof.
  revert b. induction s as [| c r IH]; intros b; cbn; [lia |].
  destruct (is_sep c); [destruct b |]; cbn.
  - specialize (IH true). lia.
  - specialize (IH true). lia.
  - specialize (IH false). lia.
Qed.

Lemma strip_length s :
  String.length (strip_leading_underscore s)
  = String.length s - (if starts_with "_" s then 1 else 0).
Proof.
  destruct s as [| c r]; cbn; [reflexivity |].
  destruct (Ascii.eqb c "_"); cbn; lia.
Qed.

Lemma starts_with_lower s : starts_with "_" (toLowerCase s) = starts_with "_" s.
Proof. destruct s as [| c r]; cbn; [reflexivity | apply lower_char_underscore]. Qed.

Lemma normalize_shorter (s : string) :
  String.length (normalize s) <= String.length s
  /\ (starts_with "_" s = true -> String.length (normalize s) < String.length s).
Proof.
  rewrite normalize_eq.
  pose proof (collapse_length false (strip_leading_underscore (toLowerCase s))) as H.
  rewrite strip_length, starts_with_lower, toLowerCase_length in H.
  split.
  - destruct (starts_with "_" s); lia.
  - intros E. rewrite E in H. destruct s as [| c r]; [discriminate |]. cbn in *. lia.
Qed.

(** X17: for a name of Latin-1 characters, the only names a [string]
    holds here, the normalized name is never longer than the name given,
    and is shorter when that begins with an underscore.  (Outside Latin-1
    [toLowerCase] can lengthen a name.) *)
Theorem normalize_length (s : string) :
  String.length (normalize s) <= String.length s
  /\ (starts_with "_" s = true -> String.length (normalize s) < String.length s).
Proof. apply normalize_shorter. Qed.

Lemma normalize_length_witness :
  String.length (normalize "_Users") < String.length "_Users".
Proof. exact (proj2 (normalize_length "_Users") eq_refl). Defined.

(** X16: a name is returned as it is, without a warning, exactly when it
    is clean: no uppercase character, no leading underscore, and no
    whitespace, slash or backslash. *)
Theorem cleanDatabaseName_fixed_points (n : string) :
  _cleanDatabaseName n = (n, []) <-> clean_name n.
Proof.
  assert (Hn : _cleanDatabaseName n
               = (normalize n,
                  if normalize n =? n then []
                  else [NodeWarn ("Database renamed  as '" ++ normalize n ++ "'.") None]))
    by reflexivity.
  rewrite Hn. split.
  - intros H. injection H as E _.
    assert (Hup : all_chars not_upper (normalize n) = true).
    { rewrite normalize_eq. apply collapse_all_chars; [reflexivity |].
      apply strip_all_chars, toLowerCase_not_upper. }
    assert (Hsep : all_chars not_sep (normalize n) = true)
      by (rewrite normalize_eq; apply collapse_not_sep).
    rewrite E in Hup, Hsep. repeat split; auto.
    destruct (starts_with "_" n) eqn:S; [| reflexivity].
    pose proof (proj2 (normalize_shorter n) S) as L. rewrite E in L. lia.
  - intros (Hup & Hst & Hsep).
    assert (E : normalize n = n).
    { rewrite normalize_eq, (toLowerCase_fixed n Hup).
      replace (strip_leading_underscore n) with n
        by (destruct n as [| c r]; cbn in *; [reflexivity | now rewrite Hst]).
      now apply collapse_fixed. }
    now rewrite E, String.eqb_refl.
Qed.

Lemma cleanDatabaseName_fixed_points_witness :
  _cleanDatabaseName "my-orders-2024" = ("my-orders-2024", []).
Proof.
  apply (proj2 (cleanDatabaseName_fixed_points "my-orders-2024")).
  repeat split.
Defined.

(** ** Renaming one field, and the messages the sanitizer cannot read *)

Lemma clean_keys_app rt a b msg :
  clean_keys rt (a ++ b) msg = bind (clean_keys rt a msg) (clean_keys rt b).
Proof.
  revert msg. induction a as [| k a IH]; intros msg.
  - exact (eq_sym (bind_ret_l msg (clean_keys rt b))).
  - cbn [app clean_keys].
    destruct (clean_key rt msg k) as [t [m1 | e]]; cbn; [| reflexivity].
    rewrite IH. destruct (clean_keys rt a m1) as [t1 [m2 | e]]; cbn.
    + destruct (clean_keys rt b m2) as [t2 r]. now rewrite app_assoc.
    + reflexivity.
Qed.

Lemma forallb_valid_others names k :
  ~ In k names ->
  (forall k', In k' names -> k' <> k -> isFieldNameValid k' = true) ->
  forallb isFieldNameValid names = true.
Proof.
  intros Hn H. apply forallb_forall. intros k' Hin. apply H; [exact Hin |].
  intros ->. now apply Hn.
Qed.

Lemma field_or_undefined_some k o v :
  get_field k o = Some v -> field_or_undefined k o = v.
Proof. unfold field_or_undefined. now intros ->. Qed.

Lemma has_field_none k o : has_field k o = false -> field_or_undefined k o = VUndefined.
Proof. unfold has_field, field_or_undefined. now destruct (get_field k o). Qed.

Lemma tail_differs k : isFieldNameValid k = false -> tail k <> k.
Proof.
  intros H E. rewrite (tail_of_invalid k H) in E at 2.
  exact (string_cons_neq _ _ E).
Qed.

Lemma rename_keeps_method k v m :
  isFieldNameValid k = false -> k <> "_hasOwnProperty" ->
  has_field "hasOwnProperty" m = false ->
  has_field "hasOwnProperty" (delete_field k (set_field (tail k) v m)) = false.
Proof.
  intros Hv Hk Hm. apply has_field_false. intros Hin.
  apply delete_field_names in Hin as [Hin _].
  apply set_field_names in Hin as [E | Hin].
  - apply Hk. now rewrite (tail_of_invalid k Hv), <- E.
  - now apply has_field_false in Hm.
Qed.

(** X18: when one field name of a mapping is invalid and the others are
    valid, the sanitizer warns once and moves the value to the name
    without its first character, where it replaces a field that already
    has that name; the other fields are as they were.  The name
    [___proto__] is left out: what is stored under [__proto__] is no
    field. *)
Theorem rename_overwrites (rt : Runtime) (m : obj) (k : string) (v : value) :
  NoDup (field_names m) ->
  get_field k m = Some v ->
  isFieldNameValid k = false ->
  (forall k', In k' (field_names m) -> k' <> k -> isFieldNameValid k' = true) ->
  has_field "length" m = false ->
  has_field "hasOwnProperty" m = false ->
  k <> "_hasOwnProperty" ->
  k <> "___proto__" ->
  exists m',
    cleanMessage rt (VObj m)
    = ([NodeWarn ("Property '" ++ k ++ "' renamed to '" ++ tail k ++ "'.") None],
       Ok (VObj m'))
    /\ get_field (tail k) m' = Some v
    /\ get_field k m' = None
    /\ (forall k', k' <> k -> k' <> tail k -> get_field k' m' = get_field k' m).
Proof.
  intros Hnd Hget Hinv Hothers Hlen Hown Hk _.
  exists (delete_field k (set_field (tail k) v m)).
  assert (Hin : In k (field_names m)).
  { apply has_field_In. unfold has_field. now rewrite Hget. }
  destruct (in_split _ _ Hin) as (pre & post & Hsplit).
  assert (Hpre : ~ In k pre /\ ~ In k post).
  { rewrite Hsplit in Hnd. apply NoDup_remove_2 in Hnd.
    split; intros H; apply Hnd, in_or_app; auto. }
  destruct Hpre as [Hpre Hpost].
  assert (Vpre : forallb isFieldNameValid pre = true).
  { apply (forallb_valid_others pre k Hpre). intros k' H. apply Hothers.
    rewrite Hsplit. apply in_or_app. now left. }
  assert (Vpost : forallb isFieldNameValid post = true).
  { apply (forallb_valid_others post k Hpost). intros k' H. apply Hothers.
    rewrite Hsplit. apply in_or_app. right. now right. }
  split; [| split; [| split]].
  - cbn [cleanMessage]. rewrite Hsplit, clean_keys_app.
    rewrite (clean_keys_valid rt m pre Hown Vpre), bind_ret_l.
    cbn [clean_keys]. unfold clean_key.
    rewrite (proj2 (has_field_In k m) Hin), Hown, Hinv. cbn [negb].
    rewrite (has_field_none _ _ Hlen), js_substring_tail.
    rewrite (field_or_undefined_some _ _ _ Hget).
    cbn. rewrite (clean_keys_valid rt _ post
                    (rename_keeps_method k v m Hinv Hk Hown) Vpost).
    reflexivity.
  - rewrite get_field_delete_other by (now apply tail_differs).
    apply get_field_set_same.
  - apply get_field_delete_same.
  - intros k' N1 N2. rewrite get_field_delete_other by exact N1.
    now apply get_field_set_other.
Qed.

Lemma rename_overwrites_witness :
  exists m',
    cleanMessage example_runtime (VObj [("_a", VNum 1); ("a", VNum 2); ("b", VNum 3)])
    = ([NodeWarn "Property '_a' renamed to 'a'." None], Ok (VObj m'))
    /\ get_field "a" m' = Some (VNum 1)
    /\ get_field "_a" m' = None
    /\ get_field "b" m' = Some (VNum 3).
Proof.
  destruct (rename_overwrites example_runtime
              [("_a", VNum 1); ("a", VNum 2); ("b", VNum 3)] "_a" (VNum 1))
    as (m' & E & Ha & Hk & Hrest).
  - repeat constructor; cbn; intuition discriminate.
  - reflexivity.
  - reflexivity.
  - intros k' [<- | [<- | [<- | []]]] N; [now elim N | reflexivity | reflexivity].
  - reflexivity.
  - reflexivity.
  - discriminate.
  - discriminate.
  - exists m'. repeat split; [exact E | exact Ha | exact Hk |].
    apply (Hrest "b"); discriminate.
Defined.

(** X19: a payload that has a field named [hasOwnProperty] stops the
    insert with a TypeError before any backend call, warning or report. *)
Theorem own_hasOwnProperty_stops {St} (rt : Runtime) (be : Backend St)
    (node : OutNode) (msg m : obj) (st : St) :
  operation node = "insert" ->
  payonly node = true ->
  field_or_undefined "payload" msg = VObj m ->
  has_field "hasOwnProperty" m = true ->
  handleMessage rt be node msg st = mkOutcome st [] (Some TypeError).
Proof.
  intros Hop Hpay Hm Hown. unfold handleMessage, insert_input.
  rewrite Hop, String.eqb_refl, Hpay, Hm, parseMessage_object.
  destruct m as [| [k0 v0] r]; [discriminate |].
  cbn [cleanMessage field_names map fst clean_keys]. unfold clean_key.
  replace (has_field k0 ((k0, v0) :: r)) with true
    by (unfold has_field; cbn; now rewrite String.eqb_refl).
  now rewrite Hown.
Qed.

Lemma own_hasOwnProperty_stops_witness :
  handleMessage example_runtime (fixed_backend None VUndefined)
    (mkOutNode "insert" true "orders")
    [("payload", VObj [("name", VStr "x"); ("hasOwnProperty", VNum 1)])] tt
  = mkOutcome tt [] (Some TypeError).
Proof.
  exact (own_hasOwnProperty_stops example_runtime (fixed_backend None VUndefined)
           (mkOutNode "insert" true "orders")
           [("payload", VObj [("name", VStr "x"); ("hasOwnProperty", VNum 1)])]
           [("name", VStr "x"); ("hasOwnProperty", VNum 1)] tt
           eq_refl eq_refl eq_refl eq_refl).
Defined.

Section CleanReturns.
Variable rt : Runtime.
Variable names : list string.
Hypothesis no_length : ~ In "_length" names.
Hypothesis no_method : ~ In "_hasOwnProperty" names.

Lemma clean_key_returns msg key :
  In key names ->
  has_field "length" msg = false ->
  has_field "hasOwnProperty" msg = false ->
  exists t msg',
    clean_key rt msg key = (t, Ok msg')
    /\ has_field "length" msg' = false
    /\ has_field "hasOwnProperty" msg' = false.
Proof.
  intros Hkey Hlen Hown. unfold clean_key. rewrite Hown.
  destruct (has_field key msg); [| now eexists _, _].
  destruct (isFieldNameValid key) eqn:Hv; cbn; [now eexists _, _ |].
  rewrite (has_field_none _ _ Hlen), js_substring_tail.
  eexists _, _. split; [reflexivity |]. split.
  - apply has_field_false. intros Hin.
    apply delete_field_names in Hin as [Hin _].
    apply set_field_names in Hin as [E | Hin].
    + apply no_length. rewrite (tail_of_invalid key Hv), <- E in Hkey. exact Hkey.
    + now apply has_field_false in Hlen.
  - apply rename_keeps_method; auto. intros ->. now apply no_method.
Qed.

Lemma clean_keys_returns keys :
  forall msg,
    (forall k, In k keys -> In k names) ->
    has_field "length" msg = false ->
    has_field "hasOwnProperty" msg = false ->
    exists t msg', clean_keys rt keys msg = (t, Ok msg').
Proof.
  induction keys as [| key keys IH]; intros msg Hsub Hlen Hown; cbn.
  - now eexists _, _.
  - destruct (clean_key_returns msg key (Hsub key (or_introl eq_refl)) Hlen Hown)
      as (t1 & m1 & E1 & Hlen1 & Hown1).
    destruct (IH m1 (fun k H => Hsub k (or_intror H)) Hlen1 Hown1)
      as (t2 & m2 & E2).
    rewrite E1. cbn. rewrite E2. now eexists _, _.
Qed.

End CleanReturns.

(** X20: a mapping none of whose fields is named [length], [_length],
    [hasOwnProperty], [_hasOwnProperty] or [___proto__] is always
    sanitized to a mapping: the parse does not throw.  (None of these
    names being there, the loop finds no [length] and no [hasOwnProperty]
    of the message's own, and stores nothing under [__proto__].) *)
Theorem sanitize_returns (rt : Runtime) (m : obj) (root : string) :
  has_field "length" m = false ->
  has_field "_length" m = false ->
  has_field "hasOwnProperty" m = false ->
  has_field "_hasOwnProperty" m = false ->
  has_field "___proto__" m = false ->
  exists w m', parseMessage rt (VObj m) root = (w, Ok (VObj m')).
Proof.
  intros H1 H2 H3 H4 _. rewrite parseMessage_object. cbn [cleanMessage].
  destruct (clean_keys_returns rt (field_names m)
              (proj1 (has_field_false _ _) H2) (proj1 (has_field_false _ _) H4)
              (field_names m) m (fun k H => H) H1 H3) as (t & m' & E).
  rewrite E. cbn. now eexists _, _.
Qed.

Lemma sanitize_returns_witness :
  exists w m',
    parseMessage example_runtime (VObj [("__a", VNum 1); ("_b", VNum 2)]) "payload"
    = (w, Ok (VObj m')).
Proof.
  exact (sanitize_returns example_runtime [("__a", VNum 1); ("_b", VNum 2)] "payload"
           eq_refl eq_refl eq_refl eq_refl eq_refl).
Defined.
